(** * The JSON news consumer: running sentiment, range alerts, author counts

    A shallow embedding of [consumers/json_consumer_gjrich.py].

    The module keeps four globals ([author_counts], [sentiment_status],
    [last_alert_range], [message_counter]) and one entry point,
    [process_message], whose whole body sits in a [try] with two handlers.
    The embedding threads the globals through a small state / exception /
    output monad, so that a mutation made before an exception is raised
    survives the handler, as it does in Python.

    Numbers.  A Python [float] is modelled by the rational it denotes
    (every finite binary64 value is a rational, and Python compares a float
    with the integer literals [-2], [-1], [1], [2] exactly).  What a float
    operation stores is the binary64 nearest to the exact result, ties to
    the even significand ([Py.to_float]): this is so for the literals of
    [author_weights], for [*] and [+], and for [round(x, 2)], which CPython
    computes as the float nearest to the decimal nearest to [x].  NaN and
    the infinities have no counterpart: a result of magnitude [2^1024] or
    more is outside the model.

    Exceptions.  The exceptions of the model are those the two handlers
    of [process_message] catch.  A [KeyboardInterrupt], which they do not
    catch, is modelled where [main] waits for the consumer, not in the
    middle of a call.

    External code.  [json.loads] and TextBlob's polarity are libraries, not
    code of this module: they are the section variables [json_loads] and
    [polarity]. *)

From Stdlib Require Import ZArith QArith Lqa Lia List String Ascii Bool.
From Stdlib Require Import PrimFloat SpecFloat FloatOps.
Import ListNotations.
Open Scope string_scope.
Open Scope Z_scope.

(** ** Python values, as [json.loads] produces them *)

#[local] Set Warnings "-register-all".

Inductive py_value : Type :=
| PyNone
| PyBool (b : bool)
| PyInt (z : Z)
| PyFloat (q : Q)
| PyStr (s : string)
| PyList (l : list py_value)
| PyDict (d : list (string * py_value)).

(** The exceptions the body of [process_message] can meet.  [ScorerError]
    stands for whatever TextBlob raises (a [TypeError] on a text that is not
    a string, for one). *)
Inductive exn : Type :=
| JSONDecodeError
| KeyError (key : py_value)
| TypeError_unhashable (v : py_value)
| ScorerError.

Module Py.

(** [isinstance(v, dict)] *)
Definition is_dict (v : py_value) : bool :=
  match v with PyDict _ => true | _ => false end.

(** Lists and dicts have no hash; every other JSON value has one. *)
Definition hashable (v : py_value) : bool :=
  match v with PyList _ | PyDict _ => false | _ => true end.

(** The number a hashable value compares as: [True == 1 == 1.0]. *)
Definition as_number (v : py_value) : option Q :=
  match v with
  | PyBool b => Some (inject_Z (if b then 1 else 0))
  | PyInt z => Some (inject_Z z)
  | PyFloat q => Some q
  | _ => None
  end.

(** Python's [==] on hashable values, the equality a dict uses on keys. *)
Definition key_eqb (a b : py_value) : bool :=
  match a, b with
  | PyNone, PyNone => true
  | PyStr s, PyStr t => String.eqb s t
  | _, _ =>
      match as_number a, as_number b with
      | Some x, Some y => Qeq_bool x y
      | _, _ => false
      end
  end.

(** A dict whose keys are strings (a JSON object): its items in
    insertion order, each key once; a lookup finds the item of the key. *)
Fixpoint lookup (d : list (string * py_value)) (k : string) : option py_value :=
  match d with
  | [] => None
  | (k', v) :: rest => if String.eqb k' k then Some v else lookup rest k
  end.

(** [d.get(k, default)] *)
Definition get (d : list (string * py_value)) (k : string) (default : py_value)
  : py_value :=
  match lookup d k with Some v => v | None => default end.

(** [x < y] on floats *)
Definition Qlt_bool (x y : Q) : bool :=
  (Qnum x * QDen y <? Qnum y * QDen x)%Z.

(** The integer nearest to [q], ties to the even one. *)
Definition round_half_even (q : Q) : Z :=
  let n := Qnum q in
  let d := Zpos (Qden q) in
  let fl := n / d in
  match 2 * (n mod d) ?= d with
  | Lt => fl
  | Gt => fl + 1
  | Eq => if Z.even fl then fl else fl + 1
  end.

(** [n / d / 2^e], for positive [n] and [d]. *)
Definition scaled (n d e : Z) : Q :=
  if 0 <=? e then Qmake n (Z.to_pos (d * 2 ^ e))
  else Qmake (n * 2 ^ (- e)) (Z.to_pos d).

(** The [k] with [2^k <= n / d < 2^(k+1)], for positive [n] and [d]. *)
Definition binade (n d : Z) : Z :=
  let k := Z.log2 n - Z.log2 d in
  if Qle_bool 1 (scaled n d k) then k else k - 1.

(** The binary64 nearest to [q], ties to the even significand: 53 bits
    of significand, and the fixed exponent [-1074] for the subnormal
    numbers.  This is what a float literal, [*] and [+] store. *)
Definition to_float (q : Q) : Q :=
  match Qnum q with
  | 0 => 0%Q
  | _ =>
      let n := Z.abs (Qnum q) in
      let d := Zpos (Qden q) in
      let e := Z.max (binade n d - 52) (-1074) in
      let m := Z.sgn (Qnum q) * round_half_even (scaled n d e) in
      Qred (if 0 <=? e then inject_Z (m * 2 ^ e)
            else Qmake m (Z.to_pos (2 ^ (- e))))
  end.

(** The rational a binary64 of the kernel denotes, to compare
    [to_float] with the machine's arithmetic. *)
Definition of_binary64 (f : float) : option Q :=
  match Prim2SF f with
  | S754_zero _ => Some 0%Q
  | S754_finite s m e =>
      let z := if s then Zneg m else Zpos m in
      Some (Qred (if 0 <=? e then inject_Z (z * 2 ^ e)
                  else Qmake z (Z.to_pos (2 ^ (- e)))))
  | _ => None
  end.

(** [x + y] and [x * y] on floats. *)
Definition float_add (x y : Q) : Q := to_float (x + y).

Definition float_mul (x y : Q) : Q := to_float (x * y).

(** [round(x, ndigits)] on a float, [ndigits >= 0]: the float nearest to
    the multiple of [10^-ndigits] nearest to [x]. *)
Definition round (x : Q) (ndigits : nat) : Q :=
  let scale := Pos.of_nat (10 ^ ndigits) in
  to_float (Qmake (round_half_even (x * inject_Z (Zpos scale))) scale).

End Py.

(** ** Module-level data *)

(** [author_counts]: a [defaultdict(int)], keys in insertion order. *)
Definition counts := list (py_value * Z).

Record state : Type := mkState {
  author_counts : counts;
  sentiment_status : Q;
  last_alert_range : option Z;
  message_counter : Z
}.

(** The globals as the module initialises them. *)
Definition initial_state : state :=
  {| author_counts := [];
     sentiment_status := 0;
     last_alert_range := None;
     message_counter := 0 |}.

Definition thresholds : list Z := [-2; -1; 1; 2].

(** The keys of [alert_messages], under the names the specification gives
    to the four bands. *)
Definition VeryNegative : Z := -2.
Definition Negative : Z := -1.
Definition Positive : Z := 1.
Definition VeryPositive : Z := 2.

Definition alert_messages : list (Z * string) :=
  [ (-2, "Hear ye, hear ye! The village is mourning the loss of several souls to a terrible illness; may God grant us strength in this trying time.");
    (-1, "Hear ye, hear ye! The Black Knight has been spotted near our borders; be prepared to defend your homes and loved ones.");
    (1, "Hear ye, hear ye! A bountiful harvest has been bestowed upon our town; let's gather in the town square for celebration and feasting.");
    (2, "Hear ye, hear ye! Lord Xavier is hosting a grand feast at his castle; all are invited to share in the merriment and revelry.") ].

(** The literals [0.4], ..., [0.8] are the floats nearest to the
    decimals. *)
Definition author_weights : list (string * Q) :=
  [ ("Isolde the Daft", Py.to_float (4 # 10));
    ("Eleanor the Fair", Py.to_float (5 # 10));
    ("Cedric Sunblade", Py.to_float (6 # 10));
    ("Tristan Cuthbert", Py.to_float (7 # 10));
    ("Alaric the Bold", Py.to_float (8 # 10)) ]%Q.

(** What the logger is handed, one constructor per call site. *)
Inductive log_event : Type :=
| DebugRaw (message : string)
| InfoProcessed (message_dict : py_value)
| InfoAuthor (author : py_value)
| InfoCounts (snapshot : counts)
| InfoTotal (total_author_count : Z)
| InfoSentiment (status : Q)
| WarningAlert (text : string)
| ErrorNotDict (message_dict : py_value)
| ErrorInvalidJSON (message : string)
| ErrorProcessing (e : exn).

Definition is_alert (ev : log_event) : bool :=
  match ev with WarningAlert _ => true | _ => false end.

Definition is_error (ev : log_event) : bool :=
  match ev with
  | ErrorNotDict _ | ErrorInvalidJSON _ | ErrorProcessing _ => true
  | _ => false
  end.

(** ** Globals, exceptions and log output, threaded *)

Inductive result (A : Type) : Type :=
| Return (a : A)
| Raise (e : exn).
Arguments Return {A} a.
Arguments Raise {A} e.

Definition M (A : Type) : Type := state -> result A * state * list log_event.

Definition ret {A} (a : A) : M A := fun st => (Return a, st, []).

Definition raise {A} (e : exn) : M A := fun st => (Raise e, st, []).

Definition bind {A B} (c : M A) (k : A -> M B) : M B :=
  fun st =>
    match c st with
    | (Return a, st1, out1) =>
        let '(r, st2, out2) := k a st1 in (r, st2, (out1 ++ out2)%list)
    | (Raise e, st1, out1) => (Raise e, st1, out1)
    end.

Notation "x <- c ;; k" := (bind c (fun x => k))
  (at level 61, c at next level, right associativity).
Notation "c ;; k" := (bind c (fun _ => k))
  (at level 61, right associativity).

Definition get_state : M state := fun st => (Return st, st, []).

Definition modify (f : state -> state) : M unit := fun st => (Return tt, f st, []).

Definition logger (ev : log_event) : M unit := fun st => (Return tt, st, [ev]).

(** [try: body  except ...: handler] *)
Definition try_except {A} (body : M A) (handler : exn -> M A) : M A :=
  fun st =>
    match body st with
    | (Return a, st1, out1) => (Return a, st1, out1)
    | (Raise e, st1, out1) =>
        let '(r, st2, out2) := handler e st1 in (r, st2, (out1 ++ out2)%list)
    end.

(** Assignments to the globals. *)
Definition set_author_counts (c : counts) (st : state) : state :=
  {| author_counts := c;
     sentiment_status := sentiment_status st;
     last_alert_range := last_alert_range st;
     message_counter := message_counter st |}.

Definition set_sentiment_status (s : Q) (st : state) : state :=
  {| author_counts := author_counts st;
     sentiment_status := s;
     last_alert_range := last_alert_range st;
     message_counter := message_counter st |}.

Definition set_last_alert_range (r : option Z) (st : state) : state :=
  {| author_counts := author_counts st;
     sentiment_status := sentiment_status st;
     last_alert_range := r;
     message_counter := message_counter st |}.

Definition set_message_counter (n : Z) (st : state) : state :=
  {| author_counts := author_counts st;
     sentiment_status := sentiment_status st;
     last_alert_range := last_alert_range st;
     message_counter := n |}.

(** ** The environment and the consumer, as [main] sees them *)

(** The process environment: [None] for a variable that is not set. *)
Definition environ : Type := string -> option string.

(** [os.getenv(name, default)] *)
Definition getenv (env : environ) (name default : string) : string :=
  match env name with Some v => v | None => default end.

(** What one step of [for message in consumer] brings: a record, a
    [KeyboardInterrupt], or an exception of the consumer.  The end of the
    list is the end of the iteration. *)
Inductive delivery : Type :=
| Delivered (offset : Z) (value : string)
| KeyboardInterrupt
| ConsumerError (description : string).

(** What the [except Exception as e] of [main] can catch. *)
Inductive caught : Type :=
| FromConsumer (description : string)
| FromProcessing (e : exn).

(** How the [for] loop of [main] ends. *)
Inductive loop_end : Type :=
| Exhausted
| Interrupted
| Failed (e : caught).

(** What [main] does that can be observed: its own log lines, one
    constructor per call site, the lines of [process_message], and the
    call of [consumer.close()]. *)
Inductive main_event : Type :=
| InfoStart
| InfoTopic (topic : string)
| InfoGroup (group_id : string)
| InfoConsumer (topic group_id : string)
| InfoPolling (topic : string)
| DebugReceived (offset : Z) (message_str : string)
| Processing (ev : log_event)
| WarningInterrupted
| ErrorConsuming (e : caught)
| ConsumerClose
| InfoClosed (topic : string)
| InfoEnd (topic group_id : string).

Definition is_close (ev : main_event) : bool :=
  match ev with ConsumerClose => true | _ => false end.

(** Lines 47-51. *)
Definition get_kafka_topic (env : environ) : string * list main_event :=
  let topic := getenv env "NEWS_TOPIC" "unknown_topic" in
  (topic, [InfoTopic topic]).

(** Lines 54-58. *)
Definition get_kafka_consumer_group_id (env : environ)
  : string * list main_event :=
  let group_id := getenv env "NEWS_CONSUMER_GROUP_ID" "default_group" in
  (group_id, [InfoGroup group_id]).

(** ** The sample environment used by the examples

    A parser and a scorer that agree with [json.loads] and with a
    deterministic mock scorer on a handful of records. *)

Definition dq : string := String "034"%char EmptyString.

(** The text [{"k1": "v1", "k2": "v2"}] of a JSON object of strings. *)
Fixpoint json_fields (fields : list (string * string)) : string :=
  match fields with
  | [] => ""
  | [(k, v)] => dq ++ k ++ dq ++ ": " ++ dq ++ v ++ dq
  | (k, v) :: rest =>
      dq ++ k ++ dq ++ ": " ++ dq ++ v ++ dq ++ ", " ++ json_fields rest
  end.

Definition json_object (fields : list (string * string)) : string :=
  "{" ++ json_fields fields ++ "}".

Definition as_dict (fields : list (string * string)) : py_value :=
  PyDict (map (fun kv => (fst kv, PyStr (snd kv))) fields).

(** Records on which the sample parser is defined. *)
Definition sample_objects : list (list (string * string)) :=
  [ [("message", "good"); ("author", "Eve")];
    [("message", "good")];
    [("message", "bad")];
    [("message", "dire")];
    [("message", "rise")];
    [("message", "calm")];
    [("message", "fine"); ("author", "Isolde the Daft")];
    [("message", "mild"); ("author", "Tristan Cuthbert")];
    [("message", "grim")];
    [("message", "faint")];
    [("message", "meh")];
    [("author", "Eve")];
    [("text", "good")] ].

Fixpoint sample_loads_in (objs : list (list (string * string))) (message : string)
  : option py_value :=
  match objs with
  | [] => None
  | fields :: rest =>
      if String.eqb message (json_object fields) then Some (as_dict fields)
      else sample_loads_in rest message
  end.

(** Sample records: one that lacks the text field, one whose author is
    a list, and scored ones with no author. *)
Definition record_without_text : string := json_object [("author", "Eve")].

Definition record_list_author : string :=
  "{" ++ dq ++ "message" ++ dq ++ ": " ++ dq ++ "good" ++ dq
      ++ ", " ++ dq ++ "author" ++ dq ++ ": [1, 2]}".

Definition record_saying (word : string) : string :=
  json_object [("message", word)].

(** [json.loads] on the sample records, on the array [[1, 2]] and on the
    object [{"message": "good", "author": [1, 2]}]; anything else is taken
    not to parse. *)
Definition sample_loads (message : string) : option py_value :=
  if String.eqb message "[1, 2]" then Some (PyList [PyInt 1; PyInt 2])
  else if String.eqb message record_list_author
  then Some (PyDict [("message", PyStr "good");
                     ("author", PyList [PyInt 1; PyInt 2])])
  else sample_loads_in sample_objects message.

(** A mock scorer: a fixed polarity for a few words, and a failure on
    anything that is not a string. *)
Definition sample_polarity (text : py_value) : option Q :=
  match text with
  | PyStr s =>
      if String.eqb s "good" then Some 1%Q
      else if String.eqb s "bad" then Some (-1)%Q
      else if String.eqb s "dire" then Some (-5)%Q
      else if String.eqb s "rise" then Some (3 # 2)%Q
      else if String.eqb s "calm" then Some (6 # 10)%Q
      else if String.eqb s "fine" then Some (1 # 2)%Q
      else if String.eqb s "mild" then Some (1 # 4)%Q
      else if String.eqb s "grim" then Some (-(7 # 8))%Q
      else if String.eqb s "faint" then Some (Py.to_float (25 # 1000))
      else if String.eqb s "meh" then Some (4 # 1000)%Q
      else Some 0%Q
  | _ => None
  end.

(** The six scenarios of the specification, as one run: scores 1, 1, 1,
    -5, 1.5, 0.6, 1 from an author with no weight. *)
Definition scenario : list string :=
  [record_saying "good"; record_saying "good"; record_saying "good";
   record_saying "dire"; record_saying "rise"; record_saying "calm";
   record_saying "good"].

(** A sample environment that sets the topic and not the group, and a
    sample consumer that is interrupted after two records. *)
Definition sample_env : environ :=
  fun name => if String.eqb name "NEWS_TOPIC" then Some "news" else None.

Definition sample_consumer : list delivery :=
  [Delivered 0 (record_saying "good"); Delivered 1 record_without_text;
   KeyboardInterrupt; Delivered 2 (record_saying "good")].

(** ** [process_message] *)

Section Consumer.

(** [json.loads]: [None] when it raises [json.JSONDecodeError]. *)
Variable json_loads : string -> option py_value.

(** [TextBlob(text).sentiment.polarity]: [None] when it raises. *)
Variable polarity : py_value -> option Q.

Definition loads (message : string) : M py_value :=
  match json_loads message with
  | Some v => ret v
  | None => raise JSONDecodeError
  end.

(** [message_dict[key]] *)
Definition getitem (d : list (string * py_value)) (key : string) : M py_value :=
  match Py.lookup d key with
  | Some v => ret v
  | None => raise (KeyError (PyStr key))
  end.

(** [c[key] += 1] on the [defaultdict(int)]: a missing key starts from
    [int()], that is 0, and goes last; a key already there keeps its
    place and its key object. *)
Fixpoint increment (c : counts) (key : py_value) : counts :=
  match c with
  | [] => [(key, 0 + 1)]
  | (k, n) :: rest =>
      if Py.key_eqb k key then (k, n + 1) :: rest
      else (k, n) :: increment rest key
  end.

(** [author_counts[author] += 1] *)
Definition count_author (author : py_value) : M unit :=
  if Py.hashable author
  then modify (fun st => set_author_counts (increment (author_counts st) author) st)
  else raise (TypeError_unhashable author).

(** [TextBlob(news_headline).sentiment.polarity] *)
Definition score (news_headline : py_value) : M Q :=
  match polarity news_headline with
  | Some s => ret s
  | None => raise ScorerError
  end.

(** [author in author_weights] and [author_weights[author]]: the keys
    are strings, so only a string author can be one of them. *)
Definition weight_of (author : py_value) : option Q :=
  match author with
  | PyStr a =>
      match find (fun kw => String.eqb (fst kw) a) author_weights with
      | Some kw => Some (snd kw)
      | None => None
      end
  | _ => None
  end.

(** Lines 146-149, as a number: the score times the author's multiplier,
    or the score itself.  The float that [weighted_sentiment] holds is the
    one nearest to it, taken where [process_body] binds the variable. *)
Definition weighted (author : py_value) (sentiment_score : Q) : Q :=
  match weight_of author with
  | Some w => (sentiment_score * w)%Q
  | None => sentiment_score
  end.

(** [sum(author_counts.values())] *)
Definition total_author_count (c : counts) : Z :=
  fold_right Z.add 0 (map snd c).

(** Lines 159-162: the summary every tenth message. *)
Definition report_counts : M unit :=
  st <- get_state ;;
  if message_counter st mod 10 =? 0
  then logger (InfoCounts (author_counts st)) ;;
       logger (InfoTotal (total_author_count (author_counts st)))
  else ret tt.

(** Lines 168-181: the [for threshold in thresholds] loop.  Every branch
    that assigns [current_range] also breaks; an iteration in which no
    branch is taken goes on to the next threshold. *)
Fixpoint range_loop (ths : list Z) (status : Q) (current_range : option Z)
  : option Z :=
  match ths with
  | [] => current_range
  | threshold :: rest =>
      if Qle_bool status (-1) && Py.Qlt_bool (-2) status then Some (-1)
      else if Qle_bool status (-2) then Some (-2)
      else if Qle_bool 1 status && Qle_bool status 2 then Some 1
      else if Py.Qlt_bool 2 status then Some 2
      else range_loop rest status current_range
  end.

Definition current_range_of (status : Q) : option Z :=
  range_loop thresholds status None.

(** [alert_messages[current_range]] *)
Definition alert_text (r : Z) : M string :=
  match find (fun kv => fst kv =? r) alert_messages with
  | Some kv => ret (snd kv)
  | None => raise (KeyError (PyInt r))
  end.

(** [last_alert_range != current_range], for [None] or an int. *)
Definition range_neqb (a b : option Z) : bool :=
  match a, b with
  | None, None => false
  | Some x, Some y => negb (x =? y)
  | _, _ => true
  end.

(** Lines 184-186. *)
Definition trigger_alert (current_range : option Z) : M unit :=
  st <- get_state ;;
  match current_range with
  | Some r =>
      if range_neqb (last_alert_range st) current_range
      then text <- alert_text r ;;
           logger (WarningAlert text) ;;
           modify (set_last_alert_range current_range)
      else ret tt
  | None => ret tt
  end.

(** Line 134: [message_dict.get("author", "unknown")] *)
Definition author_of (d : list (string * py_value)) : py_value :=
  Py.get d "author" (PyStr "unknown").

(** Lines 122-189: the body of the [try]. *)
Definition process_body (message : string) : M unit :=
  logger (DebugRaw message) ;;
  message_dict <- loads message ;;
  logger (InfoProcessed message_dict) ;;
  match message_dict with
  | PyDict d =>
      let author := author_of d in
      logger (InfoAuthor author) ;;
      count_author author ;;
      news_headline <- getitem d "message" ;;
      sentiment_score <- score news_headline ;;
      let weighted_sentiment := Py.to_float (weighted author sentiment_score) in
      modify (fun st =>
        set_sentiment_status
          (Py.float_add (sentiment_status st) weighted_sentiment) st) ;;
      modify (fun st =>
        set_sentiment_status (Py.round (sentiment_status st) 2) st) ;;
      modify (fun st => set_message_counter (message_counter st + 1) st) ;;
      report_counts ;;
      st <- get_state ;;
      logger (InfoSentiment (sentiment_status st)) ;;
      trigger_alert (current_range_of (sentiment_status st))
  | _ => logger (ErrorNotDict message_dict)
  end.

(** Lines 191-194: the two handlers, tried in order. *)
Definition handler (message : string) (e : exn) : M unit :=
  match e with
  | JSONDecodeError => logger (ErrorInvalidJSON message)
  | _ => logger (ErrorProcessing e)
  end.

Definition process_message (message : string) : M unit :=
  try_except (process_body message) (handler message).

(** The polling loop of [main]: [process_message(message.value)] for
    each record the consumer yields, in order (the loop's own debug line
    is left out).  A call that raised would end the loop. *)
Fixpoint consume (messages : list string) : M unit :=
  match messages with
  | [] => ret tt
  | message :: rest => process_message message ;; consume rest
  end.

Definition state_after (messages : list string) (st : state) : state :=
  snd (fst (consume messages st)).

Definition output_of (messages : list string) (st : state) : list log_event :=
  snd (consume messages st).

(** Lines 222-226: the [for] loop of [main], up to the point where it
    ends.  An exception raised by a delivery, or one that left
    [process_message], ends the loop; the deliveries after it are never
    asked for. *)
Fixpoint poll_loop (consumer : list delivery) (st : state)
  : loop_end * state * list main_event :=
  match consumer with
  | [] => (Exhausted, st, [])
  | Delivered offset message_str :: rest =>
      match process_message message_str st with
      | (Return _, st1, out1) =>
          let '(e, st2, out2) := poll_loop rest st1 in
          (e, st2,
           (DebugReceived offset message_str :: map Processing out1 ++ out2)%list)
      | (Raise e, st1, out1) =>
          (Failed (FromProcessing e), st1,
           (DebugReceived offset message_str :: map Processing out1)%list)
      end
  | KeyboardInterrupt :: _ => (Interrupted, st, [])
  | ConsumerError description :: _ => (Failed (FromConsumer description), st, [])
  end.

(** Lines 227-230: the two handlers of [main]. *)
Definition main_handler (e : loop_end) : list main_event :=
  match e with
  | Exhausted => []
  | Interrupted => [WarningInterrupted]
  | Failed x => [ErrorConsuming x]
  end.

(** Lines 202-235.  [create_kafka_consumer] is taken to return the
    consumer whose deliveries are [consumer]; what it logs itself is not
    part of this module. *)
Definition main (env : environ) (consumer : list delivery) (st : state)
  : state * list main_event :=
  let '(topic, out_topic) := get_kafka_topic env in
  let '(group_id, out_group) := get_kafka_consumer_group_id env in
  let '(e, st1, out) := poll_loop consumer st in
  (st1,
   ([InfoStart] ++ out_topic ++ out_group
    ++ [InfoConsumer topic group_id; InfoPolling topic]
    ++ out ++ main_handler e
    ++ [ConsumerClose; InfoClosed topic]
    ++ [InfoEnd topic group_id])%list).

(** ** Vocabulary of the statements *)

(** The record reaches line 138 and passes it: it parses to an object
    whose author can be a key of [author_counts].  This is the key whose
    count goes up. *)
Definition counted_author (message : string) : option py_value :=
  match json_loads message with
  | Some (PyDict d) =>
      if Py.hashable (author_of d) then Some (author_of d) else None
  | _ => None
  end.

Definition counted (message : string) : bool :=
  match counted_author message with Some _ => true | None => false end.

(** The record passes line 143: the (author, score) pair that is
    folded into [sentiment_status]. *)
Definition scored (message : string) : option (py_value * Q) :=
  match json_loads message with
  | Some (PyDict d) =>
      if Py.hashable (author_of d) then
        match Py.lookup d "message" with
        | Some news_headline =>
            match polarity news_headline with
            | Some sentiment_score => Some (author_of d, sentiment_score)
            | None => None
            end
        | None => None
        end
      else None
  | _ => None
  end.

Fixpoint scored_pairs (messages : list string) : list (py_value * Q) :=
  match messages with
  | [] => []
  | message :: rest =>
      match scored message with
      | Some p => p :: scored_pairs rest
      | None => scored_pairs rest
      end
  end.

(** The specification's "successfully decoded": an object that has the
    text field. *)
Definition successfully_decoded (message : string) : bool :=
  match json_loads message with
  | Some (PyDict d) =>
      match Py.lookup d "message" with Some _ => true | None => false end
  | _ => false
  end.

(** The count held for a key, 0 when the key is absent. *)
Fixpoint count_of (c : counts) (key : py_value) : Z :=
  match c with
  | [] => 0
  | (k, n) :: rest => if Py.key_eqb k key then n else count_of rest key
  end.

(** The specification's Weight Table lookup (section 4.3): the
    configured multiplier, 1.0 for an author that is not a key. *)
Definition lookup_spec (author : py_value) : Q :=
  match weight_of author with Some w => w | None => 1%Q end.

(** The specification's Weight Table (section 4.3), read off the
    configured entries and not off the code's branch: the multiplier of
    an author that is a key of the table, 1.0 for any other. *)
Definition multiplier_spec (author : py_value) : Q :=
  match author with
  | PyStr name =>
      match find (fun entry => String.eqb (fst entry) name) author_weights with
      | Some entry => snd entry
      | None => 1%Q
      end
  | _ => 1%Q
  end.

(** One step of the specification's Aggregator (section 4.4, steps 1-2),
    in float arithmetic: [round(cumulative + score * multiplier, 2)]. *)
Definition aggregate (cumulative : Q) (p : py_value * Q) : Q :=
  Py.round
    (Py.float_add cumulative (Py.float_mul (snd p) (multiplier_spec (fst p)))) 2.

(** The specification's Band Classifier (section 4.5): the table read
    once, top to bottom. *)
Definition classify_spec (x : Q) : option Z :=
  if Qle_bool x (-2) then Some VeryNegative
  else if Py.Qlt_bool (-2) x && Qle_bool x (-1) then Some Negative
  else if Qle_bool 1 x && Qle_bool x 2 then Some Positive
  else if Py.Qlt_bool 2 x then Some VeryPositive
  else None.

(** The alerts among the events of a call. *)
Definition alerts (out : list log_event) : list log_event :=
  filter is_alert out.

(** The range an alert text belongs to. *)
Definition range_of_text (text : string) : option Z :=
  match find (fun kv => String.eqb (snd kv) text) alert_messages with
  | Some kv => Some (fst kv)
  | None => None
  end.

(** The range of the latest alert in a log, if any alert is there. *)
Fixpoint last_fired (out : list log_event) : option Z :=
  match out with
  | [] => None
  | ev :: rest =>
      match last_fired rest with
      | Some r => Some r
      | None =>
          match ev with
          | WarningAlert text => range_of_text text
          | _ => None
          end
      end
  end.

(** Every record of [messages] that is scored leaves [sentiment_status]
    in the dead zone, where no range applies. *)
Fixpoint stays_neutral (messages : list string) (st : state) : bool :=
  match messages with
  | [] => true
  | message :: rest =>
      let st1 := state_after [message] st in
      match scored message with
      | Some _ =>
          match current_range_of (sentiment_status st1) with
          | None => stays_neutral rest st1
          | Some _ => false
          end
      | None => stays_neutral rest st1
      end
  end.

(** Whether lines 184-186 fire, given the range last alerted and the
    current one. *)
Definition fires (last current_range : option Z) : bool :=
  match current_range with
  | Some _ => range_neqb last current_range
  | None => false
  end.

(** The text logged for a range. *)
Definition text_for (current_range : option Z) : string :=
  match current_range with
  | Some r =>
      match find (fun kv => fst kv =? r) alert_messages with
      | Some kv => snd kv
      | None => ""
      end
  | None => ""
  end.

(** The globals after a record that is scored. *)
Definition updated (st : state) (author : py_value) (sentiment_score : Q) : state :=
  let status :=
    Py.round (Py.float_add (sentiment_status st)
                           (Py.to_float (weighted author sentiment_score))) 2 in
  let current_range := current_range_of status in
  {| author_counts := increment (author_counts st) author;
     sentiment_status := status;
     last_alert_range :=
       if fires (last_alert_range st) current_range then current_range
       else last_alert_range st;
     message_counter := message_counter st + 1 |}.

(** What lines 159-162 log. *)
Definition report_of (st : state) : list log_event :=
  if message_counter st mod 10 =? 0
  then [InfoCounts (author_counts st);
        InfoTotal (total_author_count (author_counts st))]
  else [].

(** ** Vocabulary of the further properties *)

(** No item of [c] has a key equal to [key]. *)
Fixpoint key_absent (c : counts) (key : py_value) : bool :=
  match c with
  | [] => true
  | (k, _) :: rest => negb (Py.key_eqb k key) && key_absent rest key
  end.

(** What a dict of counts is: every key has a hash, no two keys are
    equal, and every count is at least 1. *)
Fixpoint well_formed (c : counts) : bool :=
  match c with
  | [] => true
  | (k, n) :: rest =>
      Py.hashable k && (1 <=? n) && key_absent rest k && well_formed rest
  end.

(** The range of each alert of a log, in order. *)
Definition alert_ranges (out : list log_event) : list (option Z) :=
  map (fun ev => match ev with
                 | WarningAlert text => range_of_text text
                 | _ => None
                 end)
      (alerts out).

(** Each range of the list is a range, and differs from the one before
    it; the first differs from [previous]. *)
Fixpoint changes_each_time (previous : option Z) (ranges : list (option Z))
  : Prop :=
  match ranges with
  | [] => True
  | r :: rest => r <> None /\ r <> previous /\ changes_each_time r rest
  end.

(** The two lines of the summary of lines 159-162. *)
Definition is_summary (ev : log_event) : bool :=
  match ev with InfoCounts _ | InfoTotal _ => true | _ => false end.

(** The records of [messages] that are counted under a key equal to
    [key]. *)
Definition records_of (key : py_value) (messages : list string) : list string :=
  filter (fun message =>
            match counted_author message with
            | Some author => Py.key_eqb author key
            | None => false
            end)
         messages.

(** How the iteration over [consumer] ends. *)
Fixpoint end_of (consumer : list delivery) : loop_end :=
  match consumer with
  | [] => Exhausted
  | Delivered _ _ :: rest => end_of rest
  | KeyboardInterrupt :: _ => Interrupted
  | ConsumerError description :: _ => Failed (FromConsumer description)
  end.

(** ** Comparisons *)

Lemma Qlt_bool_iff (x y : Q) : Py.Qlt_bool x y = true <-> (x < y)%Q.
Proof. unfold Py.Qlt_bool, Qlt. apply Z.ltb_lt. Qed.

Lemma Qlt_bool_false (x y : Q) : Py.Qlt_bool x y = false <-> (y <= x)%Q.
Proof. unfold Py.Qlt_bool, Qle. apply Z.ltb_ge. Qed.

Lemma Qle_bool_false (x y : Q) : Qle_bool x y = false <-> (y < x)%Q.
Proof.
  split; intro H.
  - apply Qnot_le_lt. intro Hle. apply Qle_bool_iff in Hle. congruence.
  - destruct (Qle_bool x y) eqn:E; [|reflexivity].
    apply Qle_bool_iff in E. apply Qlt_not_le in H. contradiction.
Qed.

(** Case analysis on every comparison of the goal, as facts for [lra]. *)
Ltac compare_all :=
  repeat match goal with
    | |- context [Qle_bool ?a ?b] =>
        let E := fresh "E" in
        destruct (Qle_bool a b) eqn:E;
        [apply Qle_bool_iff in E | apply Qle_bool_false in E]
    | |- context [Py.Qlt_bool ?a ?b] =>
        let E := fresh "E" in
        destruct (Py.Qlt_bool a b) eqn:E;
        [apply Qlt_bool_iff in E | apply Qlt_bool_false in E]
    end.

(** One pass through the loop body decides: the remaining thresholds
    are looked at only when no branch is taken, and then no branch is
    taken for them either. *)
Lemma range_loop_one_pass (ths : list Z) (threshold : Z) (x : Q) (cr : option Z) :
  range_loop (threshold :: ths) x cr =
    if Qle_bool x (-1) && Py.Qlt_bool (-2) x then Some (-1)
    else if Qle_bool x (-2) then Some (-2)
    else if Qle_bool 1 x && Qle_bool x 2 then Some 1
    else if Py.Qlt_bool 2 x then Some 2
    else cr.
Proof.
  revert threshold. induction ths as [|t ths IH]; intro threshold.
  - reflexivity.
  - change (range_loop (threshold :: t :: ths) x cr)
      with (if Qle_bool x (-1) && Py.Qlt_bool (-2) x then Some (-1)
            else if Qle_bool x (-2) then Some (-2)
            else if Qle_bool 1 x && Qle_bool x 2 then Some 1
            else if Py.Qlt_bool 2 x then Some 2
            else range_loop (t :: ths) x cr).
    rewrite (IH t).
    destruct (Qle_bool x (-1) && Py.Qlt_bool (-2) x); [reflexivity|].
    destruct (Qle_bool x (-2)); [reflexivity|].
    destruct (Qle_bool 1 x && Qle_bool x 2); [reflexivity|].
    destruct (Py.Qlt_bool 2 x); reflexivity.
Qed.

Lemma current_range_of_unfold (x : Q) :
  current_range_of x =
    if Qle_bool x (-1) && Py.Qlt_bool (-2) x then Some (-1)
    else if Qle_bool x (-2) then Some (-2)
    else if Qle_bool 1 x && Qle_bool x 2 then Some 1
    else if Py.Qlt_bool 2 x then Some 2
    else None.
Proof. unfold current_range_of, thresholds. apply range_loop_one_pass. Qed.

(** The range depends on the value of the status, not on the fraction
    that represents it. *)
Lemma current_range_of_compat (x y : Q) :
  (x == y)%Q -> current_range_of x = current_range_of y.
Proof.
  intro H. rewrite !current_range_of_unfold.
  compare_all; cbn [andb]; try reflexivity; lra.
Qed.

(** The loop only ever yields a key of [alert_messages]. *)
Lemma current_range_of_cases (x : Q) :
  current_range_of x = None \/ current_range_of x = Some (-2) \/
  current_range_of x = Some (-1) \/ current_range_of x = Some 1 \/
  current_range_of x = Some 2.
Proof.
  rewrite current_range_of_unfold.
  destruct (Qle_bool x (-1) && Py.Qlt_bool (-2) x); [tauto|].
  destruct (Qle_bool x (-2)); [tauto|].
  destruct (Qle_bool 1 x && Qle_bool x 2); [tauto|].
  destruct (Py.Qlt_bool 2 x); tauto.
Qed.

(** ** What one call does, branch by branch *)

Ltac run_monad :=
  cbv beta iota zeta delta
    [process_message process_body try_except handler bind ret raise logger
     modify get_state loads getitem score count_author];
  cbn [app].

Lemma process_message_invalid (message : string) (st : state) :
  json_loads message = None ->
  process_message message st =
    (Return tt, st, [DebugRaw message; ErrorInvalidJSON message]).
Proof. intro H. run_monad. rewrite H. reflexivity. Qed.

Lemma process_message_not_dict (message : string) (v : py_value) (st : state) :
  json_loads message = Some v ->
  Py.is_dict v = false ->
  process_message message st =
    (Return tt, st, [DebugRaw message; InfoProcessed v; ErrorNotDict v]).
Proof.
  intros H Hv. run_monad. rewrite H.
  destruct v; try discriminate Hv; reflexivity.
Qed.

Lemma process_message_unhashable
      (message : string) (d : list (string * py_value)) (st : state) :
  json_loads message = Some (PyDict d) ->
  Py.hashable (author_of d) = false ->
  process_message message st =
    (Return tt, st,
     [DebugRaw message; InfoProcessed (PyDict d); InfoAuthor (author_of d);
      ErrorProcessing (TypeError_unhashable (author_of d))]).
Proof.
  intros H Hh. run_monad. rewrite H. rewrite Hh.
  reflexivity.
Qed.

Lemma process_message_no_text
      (message : string) (d : list (string * py_value)) (st : state) :
  json_loads message = Some (PyDict d) ->
  Py.hashable (author_of d) = true ->
  Py.lookup d "message" = None ->
  process_message message st =
    (Return tt,
     set_author_counts (increment (author_counts st) (author_of d)) st,
     [DebugRaw message; InfoProcessed (PyDict d); InfoAuthor (author_of d);
      ErrorProcessing (KeyError (PyStr "message"))]).
Proof.
  intros H Hh Ht. run_monad. rewrite H. rewrite Hh, Ht.
  reflexivity.
Qed.

Lemma process_message_scorer_raises
      (message : string) (d : list (string * py_value))
      (news_headline : py_value) (st : state) :
  json_loads message = Some (PyDict d) ->
  Py.hashable (author_of d) = true ->
  Py.lookup d "message" = Some news_headline ->
  polarity news_headline = None ->
  process_message message st =
    (Return tt,
     set_author_counts (increment (author_counts st) (author_of d)) st,
     [DebugRaw message; InfoProcessed (PyDict d); InfoAuthor (author_of d);
      ErrorProcessing ScorerError]).
Proof.
  intros H Hh Ht Hp. run_monad. rewrite H.
  rewrite Hh, Ht, Hp. reflexivity.
Qed.

Lemma scored_inv (message : string) (author : py_value) (s : Q) :
  scored message = Some (author, s) ->
  exists d news_headline,
    json_loads message = Some (PyDict d) /\
    author = author_of d /\
    Py.hashable author = true /\
    Py.lookup d "message" = Some news_headline /\
    polarity news_headline = Some s.
Proof.
  unfold scored. intro H.
  destruct (json_loads message) as [[| | | | | |d]|]; try discriminate H.
  destruct (Py.hashable (author_of d)) eqn:Hh; try discriminate H.
  destruct (Py.lookup d "message") as [h|] eqn:Ht; try discriminate H.
  destruct (polarity h) as [s'|] eqn:Hp; try discriminate H.
  injection H as <- <-. exists d, h. auto.
Qed.

Lemma report_counts_eq (st : state) :
  report_counts st = (Return tt, st, report_of st).
Proof.
  unfold report_counts, report_of, bind, get_state, logger, ret.
  destruct (message_counter st mod 10 =? 0); reflexivity.
Qed.

(** Lines 184-186 never meet a missing key: the loop yields keys of
    [alert_messages] only. *)
Lemma trigger_alert_eq (status : Q) (st : state) :
  trigger_alert (current_range_of status) st =
    (Return tt,
     (if fires (last_alert_range st) (current_range_of status)
      then set_last_alert_range (current_range_of status) st
      else st),
     if fires (last_alert_range st) (current_range_of status)
     then [WarningAlert (text_for (current_range_of status))]
     else []).
Proof.
  unfold trigger_alert, bind, get_state, fires.
  destruct (current_range_of_cases status) as [E|[E|[E|[E|E]]]];
    rewrite E; try reflexivity;
    destruct (range_neqb (last_alert_range st) _); reflexivity.
Qed.

Lemma process_message_scored
      (message : string) (author : py_value) (s : Q) (st : state) :
  scored message = Some (author, s) ->
  exists out,
    process_message message st = (Return tt, updated st author s, out) /\
    alerts out =
      if fires (last_alert_range st)
               (current_range_of (sentiment_status (updated st author s)))
      then [WarningAlert
              (text_for (current_range_of
                           (sentiment_status (updated st author s))))]
      else [].
Proof.
  intro H. apply scored_inv in H.
  destruct H as (d & h & Hl & -> & Hh & Ht & Hp).
  run_monad. rewrite Hl. rewrite Hh, Ht, Hp.
  rewrite report_counts_eq.
  cbn [sentiment_status set_sentiment_status set_message_counter
       set_author_counts set_last_alert_range author_counts
       last_alert_range message_counter].
  rewrite trigger_alert_eq.
  cbn [sentiment_status set_sentiment_status set_message_counter
       set_author_counts set_last_alert_range author_counts
       last_alert_range message_counter app].
  unfold updated.
  cbn [sentiment_status].
  destruct (fires _ _); eexists; (split; [reflexivity|]);
    unfold alerts, report_of;
    cbn [message_counter set_message_counter];
    destruct (_ =? 0); reflexivity.
Qed.

Lemma scored_counted (message : string) (author : py_value) (s : Q) :
  scored message = Some (author, s) -> counted_author message = Some author.
Proof.
  intro H. apply scored_inv in H. destruct H as (d & h & Hl & -> & Hh & _).
  unfold counted_author. rewrite Hl, Hh. reflexivity.
Qed.

(** A record that is not scored: the call ends in one of the two
    [logger.error] lines, and the only global that can have changed is
    [author_counts]. *)
Lemma process_message_unscored (message : string) (st : state) :
  scored message = None ->
  exists out,
    process_message message st =
      (Return tt,
       match counted_author message with
       | Some author =>
           set_author_counts (increment (author_counts st) author) st
       | None => st
       end,
       out) /\
    alerts out = [] /\
    existsb is_error out = true.
Proof.
  unfold scored, counted_author. intro H.
  destruct (json_loads message) as [v|] eqn:Hl.
  - destruct (Py.is_dict v) eqn:Hv.
    + destruct v; try discriminate Hv.
      destruct (Py.hashable (author_of d)) eqn:Hh.
      * destruct (Py.lookup d "message") as [h|] eqn:Ht.
        -- destruct (polarity h) eqn:Hp; try discriminate H.
           rewrite (process_message_scorer_raises message d h st Hl Hh Ht Hp).
           eexists; repeat split.
        -- rewrite (process_message_no_text message d st Hl Hh Ht).
           eexists; repeat split.
      * rewrite (process_message_unhashable message d st Hl Hh).
        eexists; repeat split.
    + rewrite (process_message_not_dict message v st Hl Hv).
      destruct v; try discriminate Hv; eexists; repeat split.
  - rewrite (process_message_invalid message st Hl).
    eexists; repeat split.
Qed.

(** No exception leaves [process_message]. *)
Lemma process_message_returns (message : string) (st : state) :
  fst (fst (process_message message st)) = Return tt.
Proof.
  destruct (scored message) as [[author s]|] eqn:H.
  - destruct (process_message_scored message author s st H) as (out & -> & _).
    reflexivity.
  - destruct (process_message_unscored message st H) as (out & -> & _).
    reflexivity.
Qed.

Lemma state_after_one (message : string) (st : state) :
  state_after [message] st = snd (fst (process_message message st)).
Proof.
  unfold state_after. cbn [consume]. unfold bind, ret.
  destruct (process_message message st) as [[[u|e] st1] out1]; reflexivity.
Qed.

Lemma output_of_one (message : string) (st : state) :
  output_of [message] st = snd (process_message message st).
Proof.
  unfold output_of. cbn [consume]. unfold bind, ret.
  pose proof (process_message_returns message st) as Hr.
  destruct (process_message message st) as [[[u|e] st1] out1];
    cbn [fst snd] in *; [apply app_nil_r | discriminate Hr].
Qed.

Lemma state_after_cons (message : string) (rest : list string) (st : state) :
  state_after (message :: rest) st = state_after rest (state_after [message] st).
Proof.
  rewrite state_after_one. unfold state_after. cbn [consume]. unfold bind.
  pose proof (process_message_returns message st) as Hr.
  destruct (process_message message st) as [[[u|e] st1] out1];
    cbn [fst snd] in *; [|discriminate Hr].
  destruct (consume rest st1) as [[r st2] out2]. reflexivity.
Qed.

Lemma output_of_cons (message : string) (rest : list string) (st : state) :
  output_of (message :: rest) st =
    (output_of [message] st ++ output_of rest (state_after [message] st))%list.
Proof.
  rewrite state_after_one, output_of_one. unfold output_of. cbn [consume].
  unfold bind.
  pose proof (process_message_returns message st) as Hr.
  destruct (process_message message st) as [[[u|e] st1] out1];
    cbn [fst snd] in *; [|discriminate Hr].
  destruct (consume rest st1) as [[r st2] out2]. reflexivity.
Qed.

(** The polling loop is never ended by a record. *)
Lemma consume_returns (messages : list string) (st : state) :
  fst (fst (consume messages st)) = Return tt.
Proof.
  revert st. induction messages as [|message rest IH]; intro st.
  - reflexivity.
  - cbn [consume]. unfold bind.
    pose proof (process_message_returns message st) as Hr.
    destruct (process_message message st) as [[[u|e] st1] out1];
      cbn [fst snd] in *; [|discriminate Hr].
    specialize (IH st1).
    destruct (consume rest st1) as [[r st2] out2]. exact IH.
Qed.

Lemma state_after_scored
      (message : string) (author : py_value) (s : Q) (st : state) :
  scored message = Some (author, s) ->
  state_after [message] st = updated st author s.
Proof.
  intro H. rewrite state_after_one.
  destruct (process_message_scored message author s st H) as (out & -> & _).
  reflexivity.
Qed.

Lemma state_after_unscored (message : string) (st : state) :
  scored message = None ->
  state_after [message] st =
    match counted_author message with
    | Some author => set_author_counts (increment (author_counts st) author) st
    | None => st
    end.
Proof.
  intro H. rewrite state_after_one.
  destruct (process_message_unscored message st H) as (out & -> & _).
  reflexivity.
Qed.

Lemma Qmult_1_r_eq (x : Q) : (x * 1)%Q = x.
Proof.
  destruct x as [n d]. unfold Qmult. cbn [Qnum Qden].
  rewrite Z.mul_1_r, Pos.mul_1_r. reflexivity.
Qed.

Lemma weighted_lookup_spec (author : py_value) (s : Q) :
  weighted author s = (s * lookup_spec author)%Q.
Proof.
  unfold weighted, lookup_spec.
  destruct (weight_of author); [reflexivity | symmetry; apply Qmult_1_r_eq].
Qed.

(** The float the code holds for the weighted score is the float product
    of the score and the table's multiplier; for an author that is not a
    key, where the code does not multiply, the product by 1.0 stores the
    same float. *)
Lemma to_float_weighted (author : py_value) (s : Q) :
  Py.to_float (weighted author s) = Py.float_mul s (multiplier_spec author).
Proof.
  unfold weighted, weight_of, multiplier_spec, Py.float_mul.
  destruct author as [| | | |name| |]; try (rewrite Qmult_1_r_eq; reflexivity).
  destruct (find _ author_weights) as [entry|]; [reflexivity|].
  rewrite Qmult_1_r_eq. reflexivity.
Qed.

Lemma range_neqb_iff (a b : option Z) : range_neqb a b = true <-> a <> b.
Proof.
  destruct a as [x|], b as [y|]; cbn [range_neqb];
    try (split; [discriminate | reflexivity]);
    try (split; [discriminate | intro H; contradiction H; reflexivity]).
  destruct (Z.eqb_spec x y) as [->|Hn]; cbn [negb]; split;
    try discriminate; try congruence.
Qed.

Lemma fires_iff (last current_range : option Z) :
  fires last current_range = true <->
  current_range <> None /\ current_range <> last.
Proof.
  unfold fires. destruct current_range as [r|].
  - rewrite range_neqb_iff. split.
    + intro H. split; [discriminate | congruence].
    + intros [_ H]. congruence.
  - split; [discriminate | intros [H _]; contradiction H; reflexivity].
Qed.

(** ** Keys of [author_counts] *)

Lemma as_number_hashable (k : py_value) (x : Q) :
  Py.as_number k = Some x -> Py.hashable k = true.
Proof. destruct k; cbn; intro H; try discriminate H; reflexivity. Qed.

Lemma key_eqb_refl (k : py_value) : Py.hashable k = true -> Py.key_eqb k k = true.
Proof.
  destruct k; cbn; intro H; try discriminate H; try reflexivity;
    try (apply Qeq_bool_iff; reflexivity).
  apply String.eqb_refl.
Qed.

Lemma key_eqb_sym (a b : py_value) : Py.key_eqb a b = Py.key_eqb b a.
Proof.
  assert (Hq : forall x y, Qeq_bool x y = Qeq_bool y x).
  { intros x y. destruct (Qeq_bool x y) eqn:E1, (Qeq_bool y x) eqn:E2;
      try reflexivity.
    - apply Qeq_bool_iff in E1. symmetry in E1. apply Qeq_bool_iff in E1.
      congruence.
    - apply Qeq_bool_iff in E2. symmetry in E2. apply Qeq_bool_iff in E2.
      congruence. }
  destruct a, b; cbn; try reflexivity; try apply Hq.
  apply String.eqb_sym.
Qed.

Lemma key_eqb_trans (a b c : py_value) :
  Py.key_eqb a b = true -> Py.key_eqb b c = true -> Py.key_eqb a c = true.
Proof.
  assert (Hq : forall x y z, Qeq_bool x y = true -> Qeq_bool y z = true ->
                             Qeq_bool x z = true).
  { intros x y z H1 H2. apply Qeq_bool_iff in H1, H2. apply Qeq_bool_iff.
    rewrite H1. exact H2. }
  destruct a, b; cbn; try discriminate; destruct c; cbn;
    try discriminate; try reflexivity; try apply Hq.
  intros H1 H2. apply String.eqb_eq in H1, H2. apply String.eqb_eq. congruence.
Qed.

Lemma total_increment (c : counts) (key : py_value) :
  total_author_count (increment c key) = total_author_count c + 1.
Proof.
  unfold total_author_count.
  induction c as [|[k n] rest IH]; cbn [increment map snd fold_right].
  - lia.
  - destruct (Py.key_eqb k key); cbn [map snd fold_right]; lia.
Qed.

Lemma count_of_increment_same (c : counts) (key : py_value) :
  Py.hashable key = true ->
  count_of (increment c key) key = count_of c key + 1.
Proof.
  intro Hh. induction c as [|[k n] rest IH]; cbn [increment count_of].
  - rewrite (key_eqb_refl key Hh). reflexivity.
  - destruct (Py.key_eqb k key) eqn:E; cbn [count_of]; rewrite E.
    + reflexivity.
    + exact IH.
Qed.

Lemma count_of_increment_other (c : counts) (key other : py_value) :
  Py.key_eqb key other = false ->
  count_of (increment c key) other = count_of c other.
Proof.
  intro Hne. induction c as [|[k n] rest IH]; cbn [increment count_of].
  - rewrite Hne. reflexivity.
  - destruct (Py.key_eqb k key) eqn:E; cbn [count_of].
    + destruct (Py.key_eqb k other) eqn:E'; [|reflexivity].
      rewrite key_eqb_sym in E.
      rewrite (key_eqb_trans key k other E E') in Hne. discriminate Hne.
    + destruct (Py.key_eqb k other); [reflexivity | exact IH].
Qed.

Lemma author_counts_step (message : string) (st : state) :
  author_counts (state_after [message] st) =
    match counted_author message with
    | Some author => increment (author_counts st) author
    | None => author_counts st
    end.
Proof.
  destruct (scored message) as [[author s]|] eqn:H.
  - rewrite (state_after_scored message author s st H).
    rewrite (scored_counted message author s H). reflexivity.
  - rewrite (state_after_unscored message st H).
    destruct (counted_author message); reflexivity.
Qed.

Lemma sentiment_status_step (message : string) (st : state) :
  sentiment_status (state_after [message] st) =
    match scored message with
    | Some p => aggregate (sentiment_status st) p
    | None => sentiment_status st
    end.
Proof.
  destruct (scored message) as [[author s]|] eqn:H.
  - rewrite (state_after_scored message author s st H).
    unfold aggregate. cbn [updated sentiment_status fst snd].
    rewrite to_float_weighted. reflexivity.
  - rewrite (state_after_unscored message st H).
    destruct (counted_author message); reflexivity.
Qed.

Lemma scored_pairs_all (messages : list string) (pairs : list (py_value * Q)) :
  map scored messages = map Some pairs -> scored_pairs messages = pairs.
Proof.
  revert pairs. induction messages as [|message rest IH]; intros [|p pairs] H;
    cbn [map] in H; try discriminate H.
  - reflexivity.
  - injection H as Hp Hrest. cbn [scored_pairs]. rewrite Hp.
    f_equal. apply IH. exact Hrest.
Qed.

(** ** Alerts along a run *)

Lemma alerts_app (a b : list log_event) :
  alerts (a ++ b) = (alerts a ++ alerts b)%list.
Proof. apply filter_app. Qed.

Lemma last_fired_alerts (out : list log_event) :
  last_fired out = last_fired (alerts out).
Proof.
  unfold alerts. induction out as [|ev rest IH]; [reflexivity|].
  cbn [last_fired filter]. destruct ev; cbn [is_alert last_fired];
    rewrite <- IH; try reflexivity;
    destruct (last_fired rest); reflexivity.
Qed.

Lemma last_fired_app (a b : list log_event) :
  last_fired (a ++ b) =
    match last_fired b with Some r => Some r | None => last_fired a end.
Proof.
  induction a as [|ev rest IH]; cbn [app last_fired].
  - destruct (last_fired b); reflexivity.
  - rewrite IH. destruct (last_fired b); reflexivity.
Qed.

Lemma range_of_text_for (status : Q) :
  current_range_of status <> None ->
  range_of_text (text_for (current_range_of status)) = current_range_of status.
Proof.
  destruct (current_range_of_cases status) as [E|[E|[E|[E|E]]]]; rewrite E;
    intro H; reflexivity.
Qed.

(** [last_alert_range] is the range of the latest alert logged. *)
Lemma last_alert_range_step (message : string) (st : state) :
  last_alert_range (state_after [message] st) =
    match last_fired (output_of [message] st) with
    | Some r => Some r
    | None => last_alert_range st
    end.
Proof.
  rewrite state_after_one, output_of_one, last_fired_alerts.
  destruct (scored message) as [[author s]|] eqn:H.
  - destruct (process_message_scored message author s st H) as (out & -> & Ha).
    cbn [fst snd]. rewrite Ha.
    cbn [updated last_alert_range sentiment_status].
    destruct (fires _ _) eqn:F; [|reflexivity].
    apply fires_iff in F. destruct F as [F _].
    cbn [updated sentiment_status] in F.
    cbn [last_fired]. rewrite (range_of_text_for _ F).
    destruct (current_range_of _); [reflexivity | contradiction F; reflexivity].
  - destruct (process_message_unscored message st H) as (out & -> & Ha & _).
    cbn [fst snd]. rewrite Ha. cbn [last_fired].
    destruct (counted_author message); reflexivity.
Qed.

Lemma last_alert_range_run (messages : list string) (st : state) :
  last_alert_range (state_after messages st) =
    match last_fired (output_of messages st) with
    | Some r => Some r
    | None => last_alert_range st
    end.
Proof.
  revert st. induction messages as [|message rest IH]; intro st.
  - reflexivity.
  - rewrite state_after_cons, output_of_cons, last_fired_app, IH.
    rewrite last_alert_range_step.
    destruct (last_fired (output_of rest _)); reflexivity.
Qed.

Lemma state_after_app (a b : list string) (st : state) :
  state_after (a ++ b) st = state_after b (state_after a st).
Proof.
  revert st. induction a as [|message rest IH]; intro st.
  - reflexivity.
  - cbn [app]. rewrite (state_after_cons message (rest ++ b)), IH.
    rewrite (state_after_cons message rest). reflexivity.
Qed.

(** While every scored record lands in the dead zone, nothing is alerted
    and [last_alert_range] stays. *)
Lemma stays_neutral_quiet (messages : list string) (st : state) :
  stays_neutral messages st = true ->
  alerts (output_of messages st) = [] /\
  last_alert_range (state_after messages st) = last_alert_range st.
Proof.
  revert st. induction messages as [|message rest IH]; intros st H.
  - split; reflexivity.
  - cbn [stays_neutral] in H.
    rewrite (state_after_cons message rest), output_of_cons, alerts_app.
    assert (Hstep : alerts (output_of [message] st) = [] /\
                    last_alert_range (state_after [message] st) =
                      last_alert_range st /\
                    stays_neutral rest (state_after [message] st) = true).
    { rewrite output_of_one.
      destruct (scored message) as [[author s]|] eqn:Hs.
      - destruct (current_range_of (sentiment_status (state_after [message] st)))
          eqn:E; [discriminate H|].
        rewrite (state_after_scored message author s st Hs) in *.
        destruct (process_message_scored message author s st Hs)
          as (out & -> & Ha).
        cbn [snd]. rewrite Ha.
        cbn [updated last_alert_range sentiment_status] in *. rewrite E.
        cbn [fires]. auto.
      - split; [|split; [|exact H]].
        + destruct (process_message_unscored message st Hs)
            as (out & -> & Ha & _). exact Ha.
        + rewrite (state_after_unscored message st Hs).
          destruct (counted_author message); reflexivity. }
    destruct Hstep as (Ha & Hl & Hr).
    destruct (IH _ Hr) as (IHa & IHl).
    rewrite Ha, IHa, IHl, Hl. split; reflexivity.
Qed.

(** ** The range of a sentiment status *)

Open Scope Q_scope.

(** C3.  The range computed at lines 167-181 is a function of the status,
    defined for every rational: it is VeryNegative exactly when
    [x <= -2], Negative exactly when [-2 < x <= -1], Positive exactly
    when [1 <= x <= 2], VeryPositive exactly when [2 < x], and no range
    (neutral) exactly when [-1 < x < 1]; one of the five conditions
    holds of every [x], and no two of them hold together. *)
Theorem current_range_total_exclusive (x : Q) :
  (current_range_of x = Some VeryNegative <-> x <= -2) /\
  (current_range_of x = Some Negative <-> -2 < x /\ x <= -1) /\
  (current_range_of x = Some Positive <-> 1 <= x /\ x <= 2) /\
  (current_range_of x = Some VeryPositive <-> 2 < x) /\
  (current_range_of x = None <-> -1 < x /\ x < 1) /\
  (x <= -2 \/ (-2 < x /\ x <= -1) \/ (-1 < x /\ x < 1) \/
   (1 <= x /\ x <= 2) \/ 2 < x) /\
  ~ (x <= -2 /\ (-2 < x /\ x <= -1)) /\
  ~ (x <= -2 /\ (-1 < x /\ x < 1)) /\
  ~ (x <= -2 /\ (1 <= x /\ x <= 2)) /\
  ~ (x <= -2 /\ 2 < x) /\
  ~ ((-2 < x /\ x <= -1) /\ (-1 < x /\ x < 1)) /\
  ~ ((-2 < x /\ x <= -1) /\ (1 <= x /\ x <= 2)) /\
  ~ ((-2 < x /\ x <= -1) /\ 2 < x) /\
  ~ ((-1 < x /\ x < 1) /\ (1 <= x /\ x <= 2)) /\
  ~ ((-1 < x /\ x < 1) /\ 2 < x) /\
  ~ ((1 <= x /\ x <= 2) /\ 2 < x).
Proof.
  rewrite current_range_of_unfold.
  unfold VeryNegative, Negative, Positive, VeryPositive.
  compare_all; cbn [andb];
    repeat split; intros; try discriminate; try lra.
Qed.

(** C9.  The loop over [thresholds] computes what the specification's
    classifier computes in one reading of its table, for every status;
    and so does the loop over any other non-empty list, since no
    condition mentions the loop variable. *)
Theorem range_loop_refines_classify_spec (x : Q) :
  range_loop thresholds x None = classify_spec x /\
  (forall (threshold : Z) (ths : list Z),
      range_loop (threshold :: ths) x None = classify_spec x).
Proof.
  assert (H : forall threshold ths,
             range_loop (threshold :: ths) x None = classify_spec x).
  { intros threshold ths. rewrite range_loop_one_pass.
    unfold classify_spec, VeryNegative, Negative, Positive, VeryPositive.
    compare_all; cbn [andb]; try reflexivity; lra. }
  split; [apply H | exact H].
Qed.

Close Scope Q_scope.

(** ** Records that are dropped *)

(** C7.  A record that [json.loads] rejects, and a record that parses to
    something other than an object, are dropped: the call returns
    normally, the four globals are what they were, one of the error lines
    is logged and no alert is. *)
Theorem unparseable_or_not_object_dropped (message : string) (st : state) :
  (json_loads message = None \/
   exists v, json_loads message = Some v /\ Py.is_dict v = false) ->
  exists out,
    process_message message st = (Return tt, st, out) /\
    alerts out = [] /\
    existsb is_error out = true /\
    (json_loads message = None ->
     out = [DebugRaw message; ErrorInvalidJSON message]) /\
    (forall v, json_loads message = Some v ->
               out = [DebugRaw message; InfoProcessed v; ErrorNotDict v]).
Proof.
  intros [H | (v & H & Hv)].
  - rewrite (process_message_invalid message st H).
    eexists; repeat split. intros v Hv. congruence.
  - rewrite (process_message_not_dict message v st H Hv).
    eexists; repeat split.
    + intro H0. congruence.
    + intros v' Hv'. congruence.
Qed.


(** C10.  A call that fails after line 138 (the text field is absent, or
    the scorer raises) leaves [sentiment_status], [last_alert_range] and
    [message_counter] as they were and logs no alert; [author_counts] holds
    the one increment already made. *)
Theorem failure_after_count_keeps_sentiment_state
        (message : string) (d : list (string * py_value)) (st : state) :
  json_loads message = Some (PyDict d) ->
  Py.hashable (author_of d) = true ->
  (Py.lookup d "message" = None \/
   exists news_headline,
     Py.lookup d "message" = Some news_headline /\
     polarity news_headline = None) ->
  exists st' out,
    process_message message st = (Return tt, st', out) /\
    sentiment_status st' = sentiment_status st /\
    last_alert_range st' = last_alert_range st /\
    message_counter st' = message_counter st /\
    alerts out = [] /\
    existsb is_error out = true /\
    author_counts st' = increment (author_counts st) (author_of d).
Proof.
  intros H Hh [Ht | (h & Ht & Hp)].
  - rewrite (process_message_no_text message d st H Hh Ht).
    do 2 eexists; repeat split.
  - rewrite (process_message_scorer_raises message d h st H Hh Ht Hp).
    do 2 eexists; repeat split.
Qed.

(** ** Weights and the running total *)

(** C8.  The weight applied at lines 146-149 is defined for every author:
    the weighted score is the score times the multiplier of the
    specification's lookup; for a key of [author_weights] that multiplier
    is the configured one, and for any other author, the default
    ["unknown"] among them, it is 1 and the weighted score is the score
    itself. *)
Theorem weight_lookup_total (author : py_value) (s : Q) :
  weighted author s = (s * lookup_spec author)%Q /\
  (forall a w, author = PyStr a -> In (a, w) author_weights ->
               lookup_spec author = w /\ weighted author s = (s * w)%Q) /\
  ((forall a w, author = PyStr a -> ~ In (a, w) author_weights) ->
   lookup_spec author = 1%Q /\ weighted author s = s) /\
  lookup_spec (PyStr "unknown") = 1%Q /\
  weighted (PyStr "unknown") s = s.
Proof.
  split; [apply weighted_lookup_spec|].
  split; [|split; [|split; reflexivity]].
  - intros a w -> Hin. unfold author_weights in Hin. cbn [In] in Hin.
    decompose [or] Hin; clear Hin;
      try match goal with H : (_, _) = (_, _) |- _ =>
            injection H as <- <-; split; reflexivity end.
    contradiction.
  - intro Hnot. unfold weighted, lookup_spec.
    assert (Hw : weight_of author = None).
    { destruct author as [| | | |name| |]; try reflexivity. unfold weight_of.
      destruct (find _ author_weights) as [[a w]|] eqn:Hf; [|reflexivity].
      apply find_some in Hf. destruct Hf as [Hin Heq]. cbn [fst] in Heq.
      apply String.eqb_eq in Heq. subst a.
      exfalso. exact (Hnot name w eq_refl Hin). }
    rewrite Hw. split; reflexivity.
Qed.

(** C4.  After any sequence of records, [sentiment_status] is the fold,
    over the (author, score) pairs of the records that are scored, of
    "multiply the score by the author's multiplier in the weight table,
    add the product to the running value, round to 2 places", all in
    float arithmetic: each step starts from the rounded float the step
    before left.  When every record is scored, the pairs are those of the
    whole sequence.  Rounding once at the end is a different function:
    three scores of 0.004 leave 0.0, where their float sum rounds to
    0.01. *)
Theorem sentiment_status_is_stepwise_rounded_sum
        (messages : list string) (st : state) :
  sentiment_status (state_after messages st) =
    fold_left aggregate (scored_pairs messages) (sentiment_status st) /\
  (forall pairs,
      map scored messages = map Some pairs ->
      sentiment_status (state_after messages st) =
        fold_left aggregate pairs (sentiment_status st)) /\
  (let pairs := [(PyStr "unknown", Py.to_float (4 # 1000));
                 (PyStr "unknown", Py.to_float (4 # 1000));
                 (PyStr "unknown", Py.to_float (4 # 1000))]%Q in
   fold_left aggregate pairs 0%Q = 0%Q /\
   Py.round
     (fold_left
        (fun c p =>
           Py.float_add c (Py.float_mul (snd p) (multiplier_spec (fst p))))
        pairs 0%Q) 2
     = Py.to_float (1 # 100)).
Proof.
  assert (H : forall messages st,
             sentiment_status (state_after messages st) =
               fold_left aggregate (scored_pairs messages) (sentiment_status st)).
  { clear messages st. induction messages as [|message rest IH]; intro st.
    - reflexivity.
    - rewrite state_after_cons, IH, sentiment_status_step.
      cbn [scored_pairs]. destruct (scored message); reflexivity. }
  split; [apply H|]. split.
  - intros pairs Hp. rewrite H, (scored_pairs_all messages pairs Hp).
    reflexivity.
  - cbv zeta. split; vm_compute; reflexivity.
Qed.

(** ** Author counts *)

(** C6, amended.  After any sequence of records, the values of
    [author_counts] add up to what they added up to before plus the
    number of records that parse to an object whose author has a hash,
    whether or not the text field is there; from the initial globals that
    is the number of such records.  Such a record adds exactly 1 to the
    count of its author and leaves every other key's count alone; any
    other record leaves [author_counts] alone. *)
Theorem author_counts_total (messages : list string) (st : state) :
  total_author_count (author_counts (state_after messages st)) =
    total_author_count (author_counts st)
    + Z.of_nat (List.length (filter counted messages)) /\
  total_author_count (author_counts (state_after messages initial_state)) =
    Z.of_nat (List.length (filter counted messages)) /\
  (forall message author,
      counted_author message = Some author ->
      count_of (author_counts (state_after [message] st)) author =
        count_of (author_counts st) author + 1 /\
      forall other,
        Py.key_eqb author other = false ->
        count_of (author_counts (state_after [message] st)) other =
          count_of (author_counts st) other) /\
  (forall message,
      counted_author message = None ->
      author_counts (state_after [message] st) = author_counts st).
Proof.
  assert (H : forall messages st,
             total_author_count (author_counts (state_after messages st)) =
               total_author_count (author_counts st)
               + Z.of_nat (List.length (filter counted messages))).
  { clear messages st. induction messages as [|message rest IH]; intro st.
    - cbn. lia.
    - rewrite state_after_cons, IH, author_counts_step.
      cbn [filter]. unfold counted at 2.
      destruct (counted_author message) as [author|].
      + rewrite total_increment. cbn [List.length]. lia.
      + lia. }
  split; [apply H|]. split; [rewrite H; reflexivity|]. split.
  - intros message author Hc. rewrite author_counts_step, Hc.
    assert (Hh : Py.hashable author = true).
    { unfold counted_author in Hc.
      destruct (json_loads message) as [[| | | | | |d]|]; try discriminate Hc.
      destruct (Py.hashable (author_of d)) eqn:Hh; try discriminate Hc.
      injection Hc as <-. exact Hh. }
    split.
    + apply count_of_increment_same. exact Hh.
    + intros other Hne. apply count_of_increment_other. exact Hne.
  - intros message Hc. rewrite author_counts_step, Hc. reflexivity.
Qed.

(** ** The update step *)

(** C2.  When a record is scored, an alert is logged if and only if the
    range of the new [sentiment_status] is not neutral and differs from
    [last_alert_range]; when one is logged it is the text of that range
    and [last_alert_range] becomes that range; when none is logged, a
    neutral range included, [last_alert_range] keeps its value. *)
Theorem alert_iff_new_range
        (message : string) (author : py_value) (s : Q) (st : state) :
  scored message = Some (author, s) ->
  exists st' out,
    process_message message st = (Return tt, st', out) /\
    (alerts out <> [] <->
     current_range_of (sentiment_status st') <> None /\
     current_range_of (sentiment_status st') <> last_alert_range st) /\
    (alerts out <> [] ->
     alerts out =
       [WarningAlert (text_for (current_range_of (sentiment_status st')))] /\
     last_alert_range st' = current_range_of (sentiment_status st')) /\
    (alerts out = [] -> last_alert_range st' = last_alert_range st) /\
    (current_range_of (sentiment_status st') = None ->
     alerts out = [] /\ last_alert_range st' = last_alert_range st).
Proof.
  intro H.
  destruct (process_message_scored message author s st H) as (out & Hpm & Ha).
  exists (updated st author s), out. split; [exact Hpm|].
  rewrite Ha. clear Ha Hpm.
  pose proof (fires_iff (last_alert_range st)
                (current_range_of (sentiment_status (updated st author s))))
    as Hf.
  cbn [updated last_alert_range sentiment_status] in *.
  destruct (fires _ _).
  - destruct Hf as [Hf _]. destruct (Hf eq_refl) as [Hf1 Hf2].
    split; [split; [intros _; split; assumption | intros _; discriminate]|].
    split; [intros _; split; reflexivity|].
    split; [intro Hn; discriminate Hn|].
    intro Hn. contradiction.
  - destruct Hf as [_ Hf].
    split; [split; [intro Hn; contradiction Hn; reflexivity
                   | intro Hn; specialize (Hf Hn); discriminate Hf]|].
    split; [intro Hn; contradiction Hn; reflexivity|].
    split; [intros _; reflexivity|].
    intros _. split; reflexivity.
Qed.

(** C5.  Take a run from the initial globals whose latest alert was for
    range [B], follow it by records whose every update lands in the dead
    zone, and then by a record that is scored.  Nothing is alerted in the
    dead zone and [last_alert_range] is still [B].  If the new status is
    in range [B] again, no alert is logged; if it is in any other range,
    that range's alert is logged and becomes [last_alert_range], whatever
    was alerted earlier in the run. *)
Theorem alert_hysteresis
        (trace quiet : list string) (message : string)
        (author : py_value) (s : Q) (B : Z) :
  last_fired (output_of trace initial_state) = Some B ->
  stays_neutral quiet (state_after trace initial_state) = true ->
  scored message = Some (author, s) ->
  let st1 := state_after (trace ++ quiet) initial_state in
  let st2 := state_after [message] st1 in
  alerts (output_of quiet (state_after trace initial_state)) = [] /\
  last_alert_range st1 = Some B /\
  (current_range_of (sentiment_status st2) = Some B ->
   alerts (output_of [message] st1) = [] /\
   last_alert_range st2 = Some B) /\
  (forall B', current_range_of (sentiment_status st2) = Some B' ->
              B' <> B ->
              alerts (output_of [message] st1) =
                [WarningAlert (text_for (Some B'))] /\
              last_alert_range st2 = Some B').
Proof.
  intros Hlast Hquiet Hs st1 st2.
  destruct (stays_neutral_quiet quiet _ Hquiet) as (Hq & Hl).
  assert (H1 : last_alert_range st1 = Some B).
  { unfold st1. rewrite state_after_app, Hl, last_alert_range_run, Hlast.
    reflexivity. }
  split; [exact Hq|]. split; [exact H1|].
  unfold st2. rewrite output_of_one.
  rewrite (state_after_scored message author s st1 Hs).
  destruct (process_message_scored message author s st1 Hs) as (out & -> & Ha).
  cbn [snd]. rewrite Ha.
  cbn [updated last_alert_range sentiment_status]. rewrite H1.
  split.
  - intros ->. cbn [fires range_neqb]. rewrite Z.eqb_refl. split; reflexivity.
  - intros B' -> Hne. cbn [fires range_neqb].
    destruct (Z.eqb_spec B B') as [->|_]; [contradiction Hne; reflexivity|].
    split; reflexivity.
Qed.

(** ** Further properties of [process_message] *)

(** Every line a scored record logs, in order. *)
Lemma process_message_scored_lines
      (message : string) (d : list (string * py_value))
      (author : py_value) (s : Q) (st : state) :
  json_loads message = Some (PyDict d) ->
  scored message = Some (author, s) ->
  process_message message st =
    (Return tt, updated st author s,
     ([DebugRaw message; InfoProcessed (PyDict d); InfoAuthor author]
      ++ report_of (updated st author s)
      ++ [InfoSentiment (sentiment_status (updated st author s))]
      ++ (if fires (last_alert_range st)
                   (current_range_of (sentiment_status (updated st author s)))
          then [WarningAlert
                  (text_for (current_range_of
                               (sentiment_status (updated st author s))))]
          else []))%list).
Proof.
  intros Hl H. apply scored_inv in H.
  destruct H as (d' & h & Hl' & -> & Hh & Ht & Hp).
  assert (d' = d) by congruence. subst d'.
  run_monad. rewrite Hl, Hh, Ht, Hp, report_counts_eq.
  cbn [sentiment_status set_sentiment_status set_message_counter
       set_author_counts set_last_alert_range author_counts
       last_alert_range message_counter].
  rewrite trigger_alert_eq.
  cbn [sentiment_status set_sentiment_status set_message_counter
       set_author_counts set_last_alert_range author_counts
       last_alert_range message_counter app].
  unfold updated, report_of.
  cbn [sentiment_status message_counter author_counts set_message_counter].
  destruct (fires _ _); reflexivity.
Qed.

Lemma total_author_count_run (messages : list string) (st : state) :
  total_author_count (author_counts (state_after messages st)) =
    total_author_count (author_counts st)
    + Z.of_nat (List.length (filter counted messages)).
Proof.
  revert st. induction messages as [|message rest IH]; intro st.
  - cbn. lia.
  - rewrite state_after_cons, IH, author_counts_step.
    cbn [filter]. unfold counted at 2.
    destruct (counted_author message) as [author|].
    + rewrite total_increment. cbn [List.length]. lia.
    + lia.
Qed.

Lemma message_counter_step (message : string) (st : state) :
  message_counter (state_after [message] st) =
    match scored message with
    | Some _ => message_counter st + 1
    | None => message_counter st
    end.
Proof.
  destruct (scored message) as [[author s]|] eqn:H.
  - rewrite (state_after_scored message author s st H). reflexivity.
  - rewrite (state_after_unscored message st H).
    destruct (counted_author message); reflexivity.
Qed.

Lemma scored_pairs_le_counted (messages : list string) :
  (List.length (scored_pairs messages)
   <= List.length (filter counted messages))%nat.
Proof.
  induction messages as [|message rest IH]; [apply Nat.le_refl|].
  cbn [scored_pairs filter]. unfold counted at 1.
  destruct (scored message) as [[author s]|] eqn:H.
  - rewrite (scored_counted message author s H). cbn [List.length]. lia.
  - destruct (counted_author message); cbn [List.length]; lia.
Qed.

(** X2.  [message_counter] goes up by one for each record that is scored
    and for no other; so it never exceeds the number of records counted
    in [author_counts], and from the initial globals it is at most the
    total of [author_counts]. *)
Theorem message_counter_counts_scored (messages : list string) (st : state) :
  message_counter (state_after messages st) =
    message_counter st + Z.of_nat (List.length (scored_pairs messages)) /\
  (List.length (scored_pairs messages)
   <= List.length (filter counted messages))%nat /\
  message_counter (state_after messages initial_state)
    <= total_author_count (author_counts (state_after messages initial_state)).
Proof.
  assert (H : forall messages st,
             message_counter (state_after messages st) =
               message_counter st
               + Z.of_nat (List.length (scored_pairs messages))).
  { clear messages st. induction messages as [|message rest IH]; intro st.
    - cbn. lia.
    - rewrite state_after_cons, IH, message_counter_step.
      cbn [scored_pairs]. destruct (scored message); cbn [List.length]; lia. }
  pose proof (scored_pairs_le_counted messages) as Hle.
  split; [apply H|]. split; [exact Hle|].
  rewrite H, total_author_count_run. cbn [message_counter author_counts
    initial_state total_author_count map fold_right]. lia.
Qed.

(** X3.  A record whose author is a list or an object is dropped at line
    138, text or no text: the four globals are what they were, the
    [TypeError] is logged by the generic handler, and the record is
    neither counted nor scored. *)
Theorem unhashable_author_dropped
        (message : string) (d : list (string * py_value)) (st : state) :
  json_loads message = Some (PyDict d) ->
  Py.hashable (author_of d) = false ->
  process_message message st =
    (Return tt, st,
     [DebugRaw message; InfoProcessed (PyDict d); InfoAuthor (author_of d);
      ErrorProcessing (TypeError_unhashable (author_of d))]) /\
  counted message = false /\
  scored message = None.
Proof.
  intros H Hh. split; [apply (process_message_unhashable message d st H Hh)|].
  unfold counted, counted_author, scored. rewrite H, Hh. split; reflexivity.
Qed.

(** X4.  A call logs exactly one error line when the record is not
    scored, and none when it is. *)
Theorem one_error_line_unless_scored (message : string) (st : state) :
  List.length (filter is_error (snd (process_message message st))) =
    match scored message with Some _ => 0%nat | None => 1%nat end.
Proof.
  destruct (scored message) as [[author s]|] eqn:Hs.
  - destruct (scored_inv message author s Hs) as (d & h & Hl & _).
    rewrite (process_message_scored_lines message d author s st Hl Hs).
    cbn [snd]. unfold report_of.
    destruct (_ =? 0); destruct (fires _ _); reflexivity.
  - unfold scored in Hs.
    destruct (json_loads message) as [v|] eqn:Hl.
    + destruct (Py.is_dict v) eqn:Hv.
      * destruct v; try discriminate Hv.
        destruct (Py.hashable (author_of d)) eqn:Hh.
        -- destruct (Py.lookup d "message") as [h|] eqn:Ht.
           ++ destruct (polarity h) eqn:Hp; try discriminate Hs.
              rewrite (process_message_scorer_raises message d h st Hl Hh Ht Hp).
              reflexivity.
           ++ rewrite (process_message_no_text message d st Hl Hh Ht).
              reflexivity.
        -- rewrite (process_message_unhashable message d st Hl Hh).
           reflexivity.
      * rewrite (process_message_not_dict message v st Hl Hv).
        destruct v; try discriminate Hv; reflexivity.
    + rewrite (process_message_invalid message st Hl). reflexivity.
Qed.

(** X5.  The summary of author counts is logged by the calls that bring
    [message_counter] to a multiple of ten, and by no other; it shows the
    table with the current record already counted, and a total one above
    the total before the call. *)
Theorem summary_every_tenth_scored (message : string) (st : state) :
  filter is_summary (snd (process_message message st)) =
    match scored message with
    | Some (author, _) =>
        if (message_counter st + 1) mod 10 =? 0
        then [InfoCounts (increment (author_counts st) author);
              InfoTotal (total_author_count (author_counts st) + 1)]
        else []
    | None => []
    end.
Proof.
  destruct (scored message) as [[author s]|] eqn:Hs.
  - destruct (scored_inv message author s Hs) as (d & h & Hl & _).
    rewrite (process_message_scored_lines message d author s st Hl Hs).
    cbn [snd]. unfold report_of.
    cbn [updated message_counter author_counts].
    rewrite total_increment.
    destruct (_ =? 0); destruct (fires _ _); reflexivity.
  - unfold scored in Hs.
    destruct (json_loads message) as [v|] eqn:Hl.
    + destruct (Py.is_dict v) eqn:Hv.
      * destruct v; try discriminate Hv.
        destruct (Py.hashable (author_of d)) eqn:Hh.
        -- destruct (Py.lookup d "message") as [h|] eqn:Ht.
           ++ destruct (polarity h) eqn:Hp; try discriminate Hs.
              rewrite (process_message_scorer_raises message d h st Hl Hh Ht Hp).
              reflexivity.
           ++ rewrite (process_message_no_text message d st Hl Hh Ht).
              reflexivity.
        -- rewrite (process_message_unhashable message d st Hl Hh).
           reflexivity.
      * rewrite (process_message_not_dict message v st Hl Hv).
        destruct v; try discriminate Hv; reflexivity.
    + rewrite (process_message_invalid message st Hl). reflexivity.
Qed.

(** ** Further properties of [author_counts] *)

Lemma count_of_increment_equal (c : counts) (key other : py_value) :
  Py.key_eqb key other = true ->
  count_of (increment c key) other = count_of c other + 1.
Proof.
  intro He. induction c as [|[k n] rest IH]; cbn [increment count_of].
  - rewrite He. reflexivity.
  - destruct (Py.key_eqb k key) eqn:E; cbn [count_of].
    + rewrite (key_eqb_trans k key other E He). reflexivity.
    + destruct (Py.key_eqb k other) eqn:E'; [|exact IH].
      rewrite key_eqb_sym in He.
      rewrite (key_eqb_trans k other key E' He) in E. discriminate E.
Qed.

Lemma key_absent_increment (c : counts) (key k : py_value) :
  key_absent c k = true ->
  Py.key_eqb key k = false ->
  key_absent (increment c key) k = true.
Proof.
  intros Ha Hne. induction c as [|[k' n] rest IH]; cbn [increment key_absent].
  - rewrite Hne. reflexivity.
  - cbn [key_absent] in Ha. apply andb_true_iff in Ha. destruct Ha as [Hk Hr].
    destruct (Py.key_eqb k' key); cbn [key_absent]; rewrite Hk; cbn [andb].
    + exact Hr.
    + apply IH. exact Hr.
Qed.

Lemma well_formed_increment (c : counts) (key : py_value) :
  well_formed c = true ->
  Py.hashable key = true ->
  well_formed (increment c key) = true.
Proof.
  intros Hw Hh. induction c as [|[k n] rest IH]; cbn [increment well_formed].
  - rewrite Hh. reflexivity.
  - cbn [well_formed] in Hw.
    apply andb_true_iff in Hw. destruct Hw as [Hw Hrest].
    apply andb_true_iff in Hw. destruct Hw as [Hw Habs].
    apply andb_true_iff in Hw. destruct Hw as [Hk Hn].
    apply Z.leb_le in Hn.
    destruct (Py.key_eqb k key) eqn:E; cbn [well_formed].
    + rewrite Hk, Habs, Hrest.
      assert (Hn' : (1 <=? n + 1) = true) by (apply Z.leb_le; lia).
      rewrite Hn'. reflexivity.
    + rewrite Hk, (IH Hrest).
      assert (Hn' : (1 <=? n) = true) by (apply Z.leb_le; lia).
      rewrite Hn'.
      rewrite (key_absent_increment rest key k Habs);
        [reflexivity | rewrite key_eqb_sym; exact E].
Qed.

Lemma counted_author_hashable (message : string) (author : py_value) :
  counted_author message = Some author -> Py.hashable author = true.
Proof.
  unfold counted_author. intro Hc.
  destruct (json_loads message) as [[| | | | | |d]|]; try discriminate Hc.
  destruct (Py.hashable (author_of d)) eqn:Hh; try discriminate Hc.
  injection Hc as <-. exact Hh.
Qed.

Lemma well_formed_run (messages : list string) (st : state) :
  well_formed (author_counts st) = true ->
  well_formed (author_counts (state_after messages st)) = true.
Proof.
  revert st. induction messages as [|message rest IH]; intros st H.
  - exact H.
  - rewrite state_after_cons. apply IH. rewrite author_counts_step.
    destruct (counted_author message) as [author|] eqn:Hc; [|exact H].
    apply well_formed_increment;
      [exact H | exact (counted_author_hashable message author Hc)].
Qed.

(** X6.  Along any run from the initial globals [author_counts] is a
    proper table: every key has a hash, no two keys are equal (so that
    [True], [1] and [1.0] share one entry), and every count is at least
    1. *)
Theorem author_counts_stays_well_formed (messages : list string) :
  well_formed (author_counts (state_after messages initial_state)) = true.
Proof. apply well_formed_run. reflexivity. Qed.

(** X7.  After any run, the count held for a key is the count held
    before plus the number of records counted under a key equal to it:
    from the initial globals, each author's entry is the number of that
    author's records, and no count ever goes down. *)
Theorem count_of_is_number_of_records
        (messages : list string) (st : state) (key : py_value) :
  count_of (author_counts (state_after messages st)) key =
    count_of (author_counts st) key
    + Z.of_nat (List.length (records_of key messages)) /\
  count_of (author_counts (state_after messages initial_state)) key =
    Z.of_nat (List.length (records_of key messages)) /\
  count_of (author_counts st) key
    <= count_of (author_counts (state_after messages st)) key.
Proof.
  assert (H : forall messages st,
             count_of (author_counts (state_after messages st)) key =
               count_of (author_counts st) key
               + Z.of_nat (List.length (records_of key messages))).
  { clear messages st. induction messages as [|message rest IH]; intro st.
    - cbn. lia.
    - rewrite state_after_cons, IH, author_counts_step.
      unfold records_of. cbn [filter]. fold (records_of key rest).
      destruct (counted_author message) as [author|].
      + destruct (Py.key_eqb author key) eqn:E.
        * rewrite (count_of_increment_equal _ author key E).
          cbn [List.length]. lia.
        * rewrite (count_of_increment_other _ author key E). lia.
      + lia. }
  split; [apply H|]. split; [rewrite H; reflexivity|].
  rewrite H. lia.
Qed.

(** ** Further properties of the alerts *)

Lemma alert_step (message : string) (st : state) :
  (alerts (output_of [message] st) = [] /\
   last_alert_range (state_after [message] st) = last_alert_range st) \/
  (exists r,
      alerts (output_of [message] st) = [WarningAlert (text_for (Some r))] /\
      range_of_text (text_for (Some r)) = Some r /\
      Some r <> last_alert_range st /\
      last_alert_range (state_after [message] st) = Some r).
Proof.
  rewrite state_after_one, output_of_one.
  destruct (scored message) as [[author s]|] eqn:H.
  - destruct (process_message_scored message author s st H) as (out & -> & Ha).
    cbn [fst snd]. cbn [updated last_alert_range sentiment_status] in *.
    remember (Py.round (Py.float_add (sentiment_status st)
                                     (Py.to_float (weighted author s))) 2)
      as status.
    rewrite Ha. clear Ha.
    destruct (fires (last_alert_range st) (current_range_of status)) eqn:F;
      [|left; split; reflexivity].
    apply fires_iff in F. destruct F as [F1 F2].
    pose proof (range_of_text_for status F1) as Hr.
    destruct (current_range_of status) as [r|]; [|contradiction F1; reflexivity].
    right. exists r. repeat split; assumption.
  - destruct (process_message_unscored message st H) as (out & -> & Ha & _).
    cbn [fst snd]. left. split; [exact Ha|].
    destruct (counted_author message); reflexivity.
Qed.

Lemma output_of_app (a b : list string) (st : state) :
  output_of (a ++ b) st = (output_of a st ++ output_of b (state_after a st))%list.
Proof.
  revert st. induction a as [|message rest IH]; intro st.
  - reflexivity.
  - cbn [app]. rewrite (output_of_cons message (rest ++ b)), IH.
    rewrite (output_of_cons message rest), (state_after_cons message rest).
    apply app_assoc.
Qed.

(** X8.  In the log of any run no alert repeats the range of the alert
    before it, and the first one differs from the [last_alert_range] the
    run started with. *)
Theorem alerts_change_range_each_time (messages : list string) (st : state) :
  changes_each_time (last_alert_range st)
                    (alert_ranges (output_of messages st)).
Proof.
  revert st. induction messages as [|message rest IH]; intro st.
  - exact I.
  - rewrite output_of_cons. unfold alert_ranges. rewrite alerts_app, map_app.
    specialize (IH (state_after [message] st)). unfold alert_ranges in IH.
    destruct (alert_step message st) as [[Ha Hl] | (r & Ha & Hr & Hne & Hl)].
    + rewrite Ha. rewrite Hl in IH. exact IH.
    + rewrite Ha. rewrite Hl in IH. cbn [map app changes_each_time].
      rewrite Hr. split; [discriminate|]. split; [exact Hne | exact IH].
Qed.

(** X9.  After any run [last_alert_range] is the range of the latest
    alert in the log of the run, and what it was before the run when the
    run logged no alert: from the initial globals it is [None] exactly
    until the first alert. *)
Theorem last_alert_range_is_latest_alert (messages : list string) (st : state) :
  last_alert_range (state_after messages st) =
    match last_fired (output_of messages st) with
    | Some r => Some r
    | None => last_alert_range st
    end /\
  last_alert_range (state_after messages initial_state) =
    last_fired (output_of messages initial_state).
Proof.
  split; [apply last_alert_range_run|].
  rewrite last_alert_range_run.
  destruct (last_fired _); reflexivity.
Qed.

(** X10.  Line 185 never meets a missing key: whatever the status, the
    range the loop yields is a key of [alert_messages], the text logged is
    the one filed under it, and lines 184-186 return normally. *)
Theorem alert_lookup_never_fails (status : Q) (st : state) :
  fst (fst (trigger_alert (current_range_of status) st)) = Return tt /\
  (forall r, current_range_of status = Some r ->
             In (r, text_for (Some r)) alert_messages).
Proof.
  split; [rewrite trigger_alert_eq; reflexivity|].
  intros r Hr.
  destruct (current_range_of_cases status) as [E|[E|[E|[E|E]]]];
    rewrite E in Hr; try discriminate Hr; injection Hr as <-;
    cbn; tauto.
Qed.

(** X11.  Processing is incremental: the globals and the log after a
    sequence of records are those of processing a first part and then the
    rest from the globals the first part left. *)
Theorem consume_splits (a b : list string) (st : state) :
  state_after (a ++ b) st = state_after b (state_after a st) /\
  output_of (a ++ b) st =
    (output_of a st ++ output_of b (state_after a st))%list.
Proof. split; [apply state_after_app | apply output_of_app]. Qed.

(** ** Rounding and weights *)


Open Scope Q_scope.


Close Scope Q_scope.

(** ** [main] *)

Lemma no_close_in_map (out : list log_event) :
  filter is_close (map Processing out) = [].
Proof. induction out as [|ev rest IH]; [reflexivity | exact IH]. Qed.

(** The loop of [main] ends as the iteration over the consumer ends;
    it closes nothing and logs no error of its own. *)
Lemma poll_loop_eq (consumer : list delivery) (st : state) :
  exists st' out,
    poll_loop consumer st = (end_of consumer, st', out) /\
    filter is_close out = [] /\
    (forall x, ~ In (ErrorConsuming x) out).
Proof.
  revert st. induction consumer as [|dl rest IH]; intro st.
  - exists st, []. repeat split. intros x [].
  - destruct dl as [offset value| |description].
    + cbn [poll_loop end_of].
      pose proof (process_message_returns value st) as Hr.
      destruct (process_message value st) as [[[[]|e] st1] out1];
        cbn [fst snd] in *; [|discriminate Hr].
      destruct (IH st1) as (st2 & out2 & -> & Hc & He).
      do 2 eexists. split; [reflexivity|].
      cbn [filter is_close]. rewrite filter_app, no_close_in_map, Hc.
      split; [reflexivity|].
      intros x [Hin|Hin]; [discriminate Hin|].
      apply in_app_or in Hin. destruct Hin as [Hin|Hin].
      * apply in_map_iff in Hin. destruct Hin as (ev & Hev & _).
        discriminate Hev.
      * exact (He x Hin).
    + exists st, []. repeat split. intros x [].
    + exists st, []. repeat split. intros x [].
Qed.

(** X17.  However the loop ends (the consumer runs out, the user
    interrupts, the consumer fails), [main] closes the consumer exactly
    once, after the handler's line if there is one, and its last line is
    the END line.  No record ends the loop: the error [main] logs, if
    any, comes from the consumer, never from [process_message]. *)
Theorem main_closes_consumer_once
        (env : environ) (consumer : list delivery) (st : state) :
  filter is_close (snd (main env consumer st)) = [ConsumerClose] /\
  (exists body,
      filter is_close body = [] /\
      snd (main env consumer st) =
        (InfoStart :: body ++ main_handler (end_of consumer)
         ++ [ConsumerClose;
             InfoClosed (getenv env "NEWS_TOPIC" "unknown_topic");
             InfoEnd (getenv env "NEWS_TOPIC" "unknown_topic")
                     (getenv env "NEWS_CONSUMER_GROUP_ID" "default_group")])%list) /\
  (forall e, ~ In (ErrorConsuming (FromProcessing e))
                  (snd (main env consumer st))).
Proof.
  unfold main, get_kafka_topic, get_kafka_consumer_group_id.
  destruct (poll_loop_eq consumer st) as (st' & out & -> & Hc & He).
  cbn [fst snd].
  split; [|split].
  - cbn [app filter is_close]. rewrite !filter_app, Hc.
    destruct (end_of consumer); reflexivity.
  - exists ([InfoTopic (getenv env "NEWS_TOPIC" "unknown_topic");
             InfoGroup (getenv env "NEWS_CONSUMER_GROUP_ID" "default_group");
             InfoConsumer (getenv env "NEWS_TOPIC" "unknown_topic")
                          (getenv env "NEWS_CONSUMER_GROUP_ID" "default_group");
             InfoPolling (getenv env "NEWS_TOPIC" "unknown_topic")]
            ++ out)%list.
    split.
    + cbn [app filter is_close]. exact Hc.
    + cbn [app]. reflexivity.
  - intros e Hin. cbn [app] in Hin.
    destruct Hin as [Hin|[Hin|[Hin|[Hin|[Hin|Hin]]]]]; try discriminate Hin.
    apply in_app_or in Hin. destruct Hin as [Hin|Hin];
      [exact (He _ Hin)|].
    apply in_app_or in Hin. destruct Hin as [Hin|Hin].
    + destruct (end_of consumer) as [| |x] eqn:E; cbn [main_handler In] in Hin.
      * contradiction.
      * destruct Hin as [Hin|[]]. discriminate Hin.
      * destruct Hin as [Hin|[]]. injection Hin as ->.
        clear -E. induction consumer as [|dl rest IH]; [discriminate E|].
        destruct dl; cbn [end_of] in E; try discriminate E; auto.
    + cbn [In] in Hin.
      destruct Hin as [Hin|[Hin|[Hin|[]]]]; discriminate Hin.
Qed.

End Consumer.

(** ** The statements at sample records *)

Lemma unparseable_or_not_object_dropped_witness :
  (sample_loads "[1, 2]" = Some (PyList [PyInt 1; PyInt 2]) /\
   Py.is_dict (PyList [PyInt 1; PyInt 2]) = false) /\
  exists out,
    process_message sample_loads sample_polarity "[1, 2]" initial_state =
      (Return tt, initial_state, out) /\
    alerts out = [] /\
    existsb is_error out = true /\
    (sample_loads "[1, 2]" = None ->
     out = [DebugRaw "[1, 2]"; ErrorInvalidJSON "[1, 2]"]) /\
    (forall v, sample_loads "[1, 2]" = Some v ->
               out = [DebugRaw "[1, 2]"; InfoProcessed v; ErrorNotDict v]).
Proof.
  split; [split; reflexivity|].
  apply (unparseable_or_not_object_dropped
           sample_loads sample_polarity "[1, 2]" initial_state).
  right. exists (PyList [PyInt 1; PyInt 2]). split; reflexivity.
Defined.



Lemma failure_after_count_keeps_sentiment_state_witness :
  (sample_loads record_without_text = Some (PyDict [("author", PyStr "Eve")]) /\
   Py.hashable (author_of [("author", PyStr "Eve")]) = true /\
   Py.lookup [("author", PyStr "Eve")] "message" = None) /\
  exists st' out,
    process_message sample_loads sample_polarity record_without_text
                    initial_state = (Return tt, st', out) /\
    sentiment_status st' = sentiment_status initial_state /\
    last_alert_range st' = last_alert_range initial_state /\
    message_counter st' = message_counter initial_state /\
    alerts out = [] /\
    existsb is_error out = true /\
    author_counts st' =
      increment (author_counts initial_state)
                (author_of [("author", PyStr "Eve")]).
Proof.
  split; [repeat split; reflexivity|].
  apply (failure_after_count_keeps_sentiment_state
           sample_loads sample_polarity record_without_text
           [("author", PyStr "Eve")] initial_state);
    [reflexivity | reflexivity | left; reflexivity].
Defined.

Lemma alert_iff_new_range_witness :
  scored sample_loads sample_polarity (record_saying "good") =
    Some (PyStr "unknown", 1%Q) /\
  exists st' out,
    process_message sample_loads sample_polarity (record_saying "good")
                    initial_state = (Return tt, st', out) /\
    (alerts out <> [] <->
     current_range_of (sentiment_status st') <> None /\
     current_range_of (sentiment_status st') <> last_alert_range initial_state) /\
    (alerts out <> [] ->
     alerts out =
       [WarningAlert (text_for (current_range_of (sentiment_status st')))] /\
     last_alert_range st' = current_range_of (sentiment_status st')) /\
    (alerts out = [] -> last_alert_range st' = last_alert_range initial_state) /\
    (current_range_of (sentiment_status st') = None ->
     alerts out = [] /\ last_alert_range st' = last_alert_range initial_state).
Proof.
  split; [reflexivity|].
  apply (alert_iff_new_range
           sample_loads sample_polarity (record_saying "good")
           (PyStr "unknown") 1%Q initial_state).
  reflexivity.
Defined.

(** C6 as stated fails, both ways: [{"author": "Eve"}] is not
    successfully decoded (no text field) and is counted;
    [{"message": "good", "author": [1, 2]}] is successfully decoded and is
    not counted. *)
Lemma author_total_is_not_decoded_count :
  List.length (filter (successfully_decoded sample_loads) [record_without_text])
    = 0%nat /\
  total_author_count
    (author_counts (state_after sample_loads sample_polarity
                                [record_without_text] initial_state)) = 1 /\
  List.length (filter (successfully_decoded sample_loads) [record_list_author])
    = 1%nat /\
  total_author_count
    (author_counts (state_after sample_loads sample_polarity
                                [record_list_author] initial_state)) = 0 /\
  total_author_count
    (author_counts (state_after sample_loads sample_polarity
                                [record_without_text] initial_state))
    <> Z.of_nat (List.length (filter (successfully_decoded sample_loads)
                                     [record_without_text])).
Proof.
  repeat split; try reflexivity.
  vm_compute. discriminate.
Qed.

Lemma alert_hysteresis_witness :
  let trace := [record_saying "good"; record_saying "good";
                record_saying "good"; record_saying "dire"] in
  let quiet := [record_saying "rise"; record_saying "calm"] in
  let message := record_saying "good" in
  (last_fired (output_of sample_loads sample_polarity trace initial_state)
     = Some VeryNegative /\
   stays_neutral sample_loads sample_polarity quiet
     (state_after sample_loads sample_polarity trace initial_state) = true /\
   scored sample_loads sample_polarity message = Some (PyStr "unknown", 1%Q)) /\
  let st1 :=
    state_after sample_loads sample_polarity (trace ++ quiet)%list initial_state in
  let st2 := state_after sample_loads sample_polarity [message] st1 in
  alerts (output_of sample_loads sample_polarity quiet
            (state_after sample_loads sample_polarity trace initial_state)) = [] /\
  last_alert_range st1 = Some VeryNegative /\
  (current_range_of (sentiment_status st2) = Some VeryNegative ->
   alerts (output_of sample_loads sample_polarity [message] st1) = [] /\
   last_alert_range st2 = Some VeryNegative) /\
  (forall B', current_range_of (sentiment_status st2) = Some B' ->
              B' <> VeryNegative ->
              alerts (output_of sample_loads sample_polarity [message] st1) =
                [WarningAlert (text_for (Some B'))] /\
              last_alert_range st2 = Some B').
Proof.
  intros trace quiet message.
  split; [repeat split; vm_compute; reflexivity|].
  apply (alert_hysteresis sample_loads sample_polarity trace quiet message
           (PyStr "unknown") 1%Q VeryNegative); vm_compute; reflexivity.
Defined.

Lemma unhashable_author_dropped_witness :
  (sample_loads record_list_author =
     Some (PyDict [("message", PyStr "good");
                   ("author", PyList [PyInt 1; PyInt 2])]) /\
   Py.hashable (author_of [("message", PyStr "good");
                           ("author", PyList [PyInt 1; PyInt 2])]) = false) /\
  process_message sample_loads sample_polarity record_list_author initial_state =
    (Return tt, initial_state,
     [DebugRaw record_list_author;
      InfoProcessed (PyDict [("message", PyStr "good");
                             ("author", PyList [PyInt 1; PyInt 2])]);
      InfoAuthor (author_of [("message", PyStr "good");
                             ("author", PyList [PyInt 1; PyInt 2])]);
      ErrorProcessing
        (TypeError_unhashable
           (author_of [("message", PyStr "good");
                       ("author", PyList [PyInt 1; PyInt 2])]))]) /\
  counted sample_loads record_list_author = false /\
  scored sample_loads sample_polarity record_list_author = None.
Proof.
  split; [split; reflexivity|].
  apply (unhashable_author_dropped
           sample_loads sample_polarity record_list_author
           [("message", PyStr "good"); ("author", PyList [PyInt 1; PyInt 2])]
           initial_state); reflexivity.
Defined.

(** ** The scenarios of the specification, run *)

Example scenario_statuses :
  map (fun n => sentiment_status
                  (state_after sample_loads sample_polarity
                               (firstn n scenario) initial_state))
      [1; 2; 3; 4; 5; 6; 7]%nat
  = map Py.to_float [1; 2; 3; -2; -(1 # 2); 1 # 10; 11 # 10]%Q.
Proof. vm_compute. reflexivity. Qed.

Example scenario_last_alert_ranges :
  map (fun n => last_alert_range
                  (state_after sample_loads sample_polarity
                               (firstn n scenario) initial_state))
      [1; 2; 3; 4; 5; 6; 7]%nat
  = [Some Positive; Some Positive; Some VeryPositive; Some VeryNegative;
     Some VeryNegative; Some VeryNegative; Some Positive].
Proof. vm_compute. reflexivity. Qed.

Example scenario_alerts :
  map (fun ev => match ev with WarningAlert t => range_of_text t | _ => None end)
      (alerts (output_of sample_loads sample_polarity scenario initial_state))
  = [Some Positive; Some VeryPositive; Some VeryNegative; Some Positive].
Proof. vm_compute. reflexivity. Qed.

(** Float arithmetic shows: a polarity of 0.25 from an author weighted
    0.7 leaves 0.17, the product being just below 0.175; and 0.1 + 0.025
    is the float 0.125, which rounds to the even 0.12. *)
Example float_products_and_sums :
  sentiment_status
    (state_after sample_loads sample_polarity
       [json_object [("message", "mild"); ("author", "Tristan Cuthbert")]]
       initial_state)
    = Py.to_float (17 # 100) /\
  sentiment_status
    (state_after sample_loads sample_polarity [record_saying "faint"]
       (set_sentiment_status (Py.to_float (1 # 10)) initial_state))
    = Py.to_float (12 # 100) /\
  sentiment_status
    (state_after sample_loads sample_polarity [record_saying "grim"]
       (set_sentiment_status (Py.to_float (-(89 # 100))) initial_state))
    = Py.to_float (-(177 # 100)).
Proof. repeat split; vm_compute; reflexivity. Qed.

Example main_interrupted :
  main sample_loads sample_polarity sample_env sample_consumer initial_state =
    ({| author_counts := [(PyStr "unknown", 1); (PyStr "Eve", 1)];
        sentiment_status := 1;
        last_alert_range := Some Positive;
        message_counter := 1 |},
     [InfoStart; InfoTopic "news"; InfoGroup "default_group";
      InfoConsumer "news" "default_group"; InfoPolling "news";
      DebugReceived 0 (record_saying "good");
      Processing (DebugRaw (record_saying "good"));
      Processing (InfoProcessed (PyDict [("message", PyStr "good")]));
      Processing (InfoAuthor (PyStr "unknown"));
      Processing (InfoSentiment 1);
      Processing (WarningAlert (text_for (Some Positive)));
      DebugReceived 1 record_without_text;
      Processing (DebugRaw record_without_text);
      Processing (InfoProcessed (PyDict [("author", PyStr "Eve")]));
      Processing (InfoAuthor (PyStr "Eve"));
      Processing (ErrorProcessing (KeyError (PyStr "message")));
      WarningInterrupted; ConsumerClose; InfoClosed "news";
      InfoEnd "news" "default_group"]).
Proof. vm_compute. reflexivity. Qed.

(** [Py.to_float] against the binary64 arithmetic of the kernel: the
    literals of [author_weights], and sums and products of floats, among
    them a subnormal one. *)
Example to_float_is_binary64_literal :
  map Py.of_binary64
      [0x1.999999999999ap-2; 0x1p-1; 0x1.3333333333333p-1;
       0x1.6666666666666p-1; 0x1.999999999999ap-1]%float
  = map (fun entry => Some (snd entry)) author_weights.
Proof. vm_compute. reflexivity. Qed.

Example to_float_is_binary64_arithmetic :
  forallb
    (fun ab : float * float =>
       match Py.of_binary64 (fst ab), Py.of_binary64 (snd ab),
             Py.of_binary64 (fst ab + snd ab)%float,
             Py.of_binary64 (fst ab * snd ab)%float
       with
       | Some x, Some y, Some sum, Some product =>
           Qeq_bool (Py.to_float x) x && Qeq_bool (Py.to_float y) y
           && Qeq_bool (Py.float_add x y) sum
           && Qeq_bool (Py.float_mul x y) product
       | _, _, _, _ => false
       end)
    [(0x1.999999999999ap-4, 0x1.999999999999ap-6);
     (0x1.6666666666666p-1, 0x1p-2);
     (-0x1.c7ae147ae147bp-1, -0x1.cp-1);
     (0x1.5555555555555p-2, 0x1.6666666666666p-1);
     (0x1.d6f34547e6b75p+26, 0x1.091f169006c62p-20);
     (0x0.03739a252b281p-1022, 0x1.3333333333333p-2);
     (0x1.fffffffffffffp+52, 0x1.8p+1)]%float
  = true.
Proof. vm_compute. reflexivity. Qed.
